(** * Vessel mirror, shared position source and location trackers

    A shallow embedding of the synchronisation mechanism of the maritime
    monitoring application:

    - [App]: the root view ([App.tsx]): the handlers that register a vessel,
      fold a position into a record, change a status and reload the vessel
      list from [localStorage];
    - [SharedGeolocation]: [utils/sharedGeolocation.ts], the reference-counted
      wrapper around [navigator.geolocation.watchPosition];
    - [Tracker]: the location trackers ([CoastGuardLocationTracker.tsx],
      [LocationTracker.tsx]) and their status state machine.

    JavaScript numbers are IEEE 754 binary64 values ([PrimFloat.float]);
    values that come out of [JSON.parse] are untyped ([JS.jsval]); records
    that the program builds itself from typed literals are Rocq records. *)

From Stdlib Require Import Ascii PrimFloat FloatClass FloatOps FloatAxioms SpecFloat.
From stdpp Require Import base option list strings gmap countable pretty.

Set Warnings "-register-all,-inexact-float".

Local Open Scope string_scope.
Local Open Scope list_scope.

(** ** JavaScript values *)

Module JS.

Definition number := float.

(** A runtime value: what [JSON.parse] can return, and [undefined] for the
    result of reading an absent property. *)
Inductive jsval : Type :=
  | VUndefined
  | VNull
  | VBool (b : bool)
  | VNum (n : number)
  | VStr (s : string)
  | VArr (l : list jsval)
  | VObj (kv : gmap string jsval).

Inductive exn := TypeError | SyntaxError | QuotaExceededError.

Inductive outcome (A : Type) : Type :=
  | Ok (a : A)
  | Throw (e : exn).
Arguments Ok {A} a.
Arguments Throw {A} e.

(** [v.k] for a data field [k] (the program reads [aisId], [boatId] and
    [fishermanName], none of them an index or a built-in property): reading
    from [null] or [undefined] throws, a primitive or an array has no such
    property. *)
Definition get_field (v : jsval) (k : string) : outcome jsval :=
  match v with
  | VUndefined | VNull => Throw TypeError
  | VObj kv => Ok (default VUndefined (kv !! k))
  | VBool _ | VNum _ | VStr _ | VArr _ => Ok VUndefined
  end.

(** [v === s] for a string [s]. *)
Definition strict_eq_string (v : jsval) (s : string) : bool :=
  match v with
  | VStr s' => bool_decide (s' = s)
  | _ => false
  end.

(** [if (s)] for a string: only the empty string is falsy. *)
Definition truthy (s : string) : bool :=
  match s with
  | EmptyString => false
  | String _ _ => true
  end.

(** [v.length]: the value is only logged; the read throws on [null]. *)
Definition require_object_coercible (v : jsval) : outcome unit :=
  match v with
  | VUndefined | VNull => Throw TypeError
  | _ => Ok tt
  end.

(** [v.map(...)], [v.findIndex(...)]: only an array has these methods; on
    every other value the call is a [TypeError] (a property of a parsed
    JSON object is never a function). The result is the list of elements
    the method iterates over. *)
Definition array_method (v : jsval) : outcome (list jsval) :=
  match v with
  | VArr l => Ok l
  | _ => Throw TypeError
  end.

Definition chars (s : string) : list jsval :=
  (fun c => VStr (String c EmptyString)) <$> String.list_ascii_of_string s.

Definition indexed (l : list jsval) : gmap string jsval :=
  list_to_map (imap (fun i x => (pretty i, x)) l).

(** The own enumerable properties that [{...v}] copies. *)
Definition own_fields (v : jsval) : gmap string jsval :=
  match v with
  | VObj kv => kv
  | VArr l => indexed l
  | VStr s => indexed (chars s)
  | VUndefined | VNull | VBool _ | VNum _ => ∅
  end.

(** [{...v, k: x}] *)
Definition spread_with (v : jsval) (k : string) (x : jsval) : jsval :=
  VObj (<[k := x]> (own_fields v)).

(** [l.findIndex(boat => boat.aisId === id)]; [None] stands for [-1]. *)
Fixpoint findIndex_from (i : nat) (id : string) (l : list jsval)
  : outcome (option nat) :=
  match l with
  | [] => Ok None
  | boat :: rest =>
      match get_field boat "aisId" with
      | Throw e => Throw e
      | Ok v =>
          if strict_eq_string v id then Ok (Some i)
          else findIndex_from (S i) id rest
      end
  end.

Definition findIndex_aisId : string -> list jsval -> outcome (option nat) :=
  findIndex_from 0.

(** [l.map(f)] for a callback that may throw. *)
Fixpoint map_throwing {A B} (f : A -> outcome B) (l : list A)
  : outcome (list B) :=
  match l with
  | [] => Ok []
  | x :: rest =>
      match f x with
      | Throw e => Throw e
      | Ok y =>
          match map_throwing f rest with
          | Throw e => Throw e
          | Ok ys => Ok (y :: ys)
          end
      end
  end.

(** [v == null]: reading a field of such a value throws. *)
Definition nullish (v : jsval) : bool :=
  match v with
  | VUndefined | VNull => true
  | _ => false
  end.

End JS.
Export JS.

(** ** The root view: [App.tsx] *)

Module App.

(** *** Records of the data model *)

Inductive Status := safe | warning | danger.

Definition status_string (s : Status) : string :=
  match s with
  | safe => "safe"
  | warning => "warning"
  | danger => "danger"
  end.

Record Location := { lat : number; lng : number; timestamp : number }.

Module BoatData.

Record t := mk {
  aisId : string;
  boatId : string;
  location : Location;
  status : Status;
  speed : number;
  heading : number;
  lastUpdate : number;
  fishermanName : option string;
  contactInfo : option string
}.

(** [{ ...b, location: l, lastUpdate: u }] *)
Definition with_location (b : t) (l : Location) (u : number) : t :=
  {| aisId := aisId b; boatId := boatId b; location := l; status := status b;
     speed := speed b; heading := heading b; lastUpdate := u;
     fishermanName := fishermanName b; contactInfo := contactInfo b |}.

(** [{ ...b, status }] *)
Definition with_status (b : t) (s : Status) : t :=
  {| aisId := aisId b; boatId := boatId b; location := location b; status := s;
     speed := speed b; heading := heading b; lastUpdate := lastUpdate b;
     fishermanName := fishermanName b; contactInfo := contactInfo b |}.

End BoatData.

Module CoastGuardVessel.

Record t := mk {
  vesselId : string;
  vesselName : string;
  location : Location;
  speed : number;
  heading : number;
  lastUpdate : number;
  isTracking : bool
}.

(** [{ ...v, location, speed, heading, lastUpdate }] *)
Definition with_fix (v : t) (l : Location) (s h u : number) : t :=
  {| vesselId := vesselId v; vesselName := vesselName v; location := l;
     speed := s; heading := h; lastUpdate := u; isTracking := isTracking v |}.

(** [{ ...v, isTracking: enabled }] *)
Definition with_isTracking (v : t) (enabled : bool) : t :=
  {| vesselId := vesselId v; vesselName := vesselName v;
     location := location v; speed := speed v; heading := heading v;
     lastUpdate := lastUpdate v; isTracking := enabled |}.

End CoastGuardVessel.

(** The runtime object of a typed record, as it sits in the vessel array and
    goes through [JSON.stringify]. An optional field that is absent has no
    key. *)
Definition location_json (l : Location) : jsval :=
  VObj (list_to_map
    [("lat", VNum (lat l)); ("lng", VNum (lng l));
     ("timestamp", VNum (timestamp l))]).

Definition optional_string (k : string) (o : option string)
  : list (string * jsval) :=
  match o with
  | Some s => [(k, VStr s)]
  | None => []
  end.

Definition boat_json (b : BoatData.t) : jsval :=
  VObj (list_to_map
    ([("aisId", VStr (BoatData.aisId b));
      ("boatId", VStr (BoatData.boatId b));
      ("location", location_json (BoatData.location b));
      ("status", VStr (status_string (BoatData.status b)));
      ("speed", VNum (BoatData.speed b));
      ("heading", VNum (BoatData.heading b));
      ("lastUpdate", VNum (BoatData.lastUpdate b))]
     ++ optional_string "fishermanName" (BoatData.fishermanName b)
     ++ optional_string "contactInfo" (BoatData.contactInfo b))).

(** *** State of the component and of the browser *)

Inductive UserType := fisherman | coastguard.

(** The [useState] cells of [App] that the handlers below touch. *)
Record AppState := {
  userType : option UserType;
  isRegistered : bool;
  boatData : option BoatData.t;
  allBoats : list jsval;
  isTracking : bool;
  coastGuardVessel : option CoastGuardVessel.t;
  isCoastGuardTracking : bool
}.

Definition initial_state : AppState :=
  {| userType := None; isRegistered := false; boatData := None;
     allBoats := []; isTracking := false; coastGuardVessel := None;
     isCoastGuardTracking := false |}.

Record Sys := {
  app : AppState;
  localStorage : gmap string string
}.

(** What a handler does to the outside, in program order. *)
Inductive Event :=
  | SetItem (key value : string)
  | DispatchEvent (name : string)
  | ConsoleLog (label : string)
  | ConsoleError (label : string).

Record Run (A : Type) := {
  result : outcome A;
  final : Sys;
  emitted : list Event
}.
Arguments result {A} r.
Arguments final {A} r.
Arguments emitted {A} r.

(** A handler: a state transformer that may throw and that emits events.
    State written before a throw stays written. *)
Definition M (A : Type) : Type := Sys -> Run A.

#[export] Instance M_ret : MRet M := fun A a s =>
  {| result := Ok a; final := s; emitted := [] |}.

(** The events [es] happened before the run [r]. *)
Definition after {A} (es : list Event) (r : Run A) : Run A :=
  match r with
  | {| result := o; final := s; emitted := es' |} =>
      {| result := o; final := s; emitted := es ++ es' |}
  end.

#[export] Instance M_bind : MBind M := fun A B k m s =>
  match m s with
  | {| result := Ok a; final := s'; emitted := es |} => after es (k a s')
  | {| result := Throw e; final := s'; emitted := es |} =>
      {| result := Throw e; final := s'; emitted := es |}
  end.

Definition throw {A} (e : exn) : M A := fun s =>
  {| result := Throw e; final := s; emitted := [] |}.

Definition lift {A} (o : outcome A) : M A :=
  match o with
  | Ok a => mret a
  | Throw e => throw e
  end.

Definition emit (e : Event) : M unit := fun s =>
  {| result := Ok tt; final := s; emitted := [e] |}.

(** [try { body } catch (error) { handler }] *)
Definition try_catch {A} (body : M A) (handler : exn -> M A) : M A := fun s =>
  match body s with
  | {| result := Ok a; final := s'; emitted := es |} =>
      {| result := Ok a; final := s'; emitted := es |}
  | {| result := Throw e; final := s'; emitted := es |} =>
      after es (handler e s')
  end.

Definition read_state : M AppState := fun s =>
  {| result := Ok (app s); final := s; emitted := [] |}.

Definition write_state (f : AppState -> AppState) : M unit := fun s =>
  {| result := Ok tt;
     final := {| app := f (app s); localStorage := localStorage s |};
     emitted := [] |}.

Definition setBoatData (v : option BoatData.t) : M unit :=
  write_state (fun a =>
    {| userType := userType a; isRegistered := isRegistered a; boatData := v;
       allBoats := allBoats a; isTracking := isTracking a;
       coastGuardVessel := coastGuardVessel a;
       isCoastGuardTracking := isCoastGuardTracking a |}).

Definition setAllBoats (v : list jsval) : M unit :=
  write_state (fun a =>
    {| userType := userType a; isRegistered := isRegistered a;
       boatData := boatData a; allBoats := v; isTracking := isTracking a;
       coastGuardVessel := coastGuardVessel a;
       isCoastGuardTracking := isCoastGuardTracking a |}).

Definition setIsRegistered (v : bool) : M unit :=
  write_state (fun a =>
    {| userType := userType a; isRegistered := v; boatData := boatData a;
       allBoats := allBoats a; isTracking := isTracking a;
       coastGuardVessel := coastGuardVessel a;
       isCoastGuardTracking := isCoastGuardTracking a |}).

Definition setIsTracking (v : bool) : M unit :=
  write_state (fun a =>
    {| userType := userType a; isRegistered := isRegistered a;
       boatData := boatData a; allBoats := allBoats a; isTracking := v;
       coastGuardVessel := coastGuardVessel a;
       isCoastGuardTracking := isCoastGuardTracking a |}).

Definition setCoastGuardVessel (v : option CoastGuardVessel.t) : M unit :=
  write_state (fun a =>
    {| userType := userType a; isRegistered := isRegistered a;
       boatData := boatData a; allBoats := allBoats a;
       isTracking := isTracking a; coastGuardVessel := v;
       isCoastGuardTracking := isCoastGuardTracking a |}).

Definition setIsCoastGuardTracking (v : bool) : M unit :=
  write_state (fun a =>
    {| userType := userType a; isRegistered := isRegistered a;
       boatData := boatData a; allBoats := allBoats a;
       isTracking := isTracking a; coastGuardVessel := coastGuardVessel a;
       isCoastGuardTracking := v |}).

Definition console_log (label : string) : M unit := emit (ConsoleLog label).
Definition console_error (label : string) : M unit := emit (ConsoleError label).

(** [window.dispatchEvent(new CustomEvent(name))] *)
Definition dispatchEvent (name : string) : M unit := emit (DispatchEvent name).

Definition getItem (key : string) : M (option string) := fun s =>
  {| result := Ok (localStorage s !! key); final := s; emitted := [] |}.

Definition mirror_key : string := "registeredVessels".
Definition broadcast : string := "vesselsUpdated".

(** Every write of the mirror key in a trace is directly followed by the
    dispatch of the [vesselsUpdated] event. *)
Fixpoint broadcast_follows_writes (trace : list Event) : bool :=
  match trace with
  | [] => true
  | SetItem key _ :: rest =>
      (if bool_decide (key = mirror_key) then
         match rest with
         | DispatchEvent name :: _ => bool_decide (name = broadcast)
         | _ => false
         end
       else true)
      && broadcast_follows_writes rest
  | _ :: rest => broadcast_follows_writes rest
  end.

Definition is_write (e : Event) : bool :=
  match e with
  | SetItem _ _ => true
  | _ => false
  end.

Arguments boat_json : simpl never.
Arguments location_json : simpl never.

(** *** The handlers *)

Section Platform.

(** Built-ins of the browser. [JSON_parse] is [None] where [JSON.parse] throws
    a [SyntaxError]; [storage_accepts key value] is [false] where
    [localStorage.setItem] throws because the quota is exceeded. *)
Variable JSON_parse : string -> option jsval.
Variable JSON_stringify : jsval -> string.
Variable storage_accepts : string -> string -> bool.

Definition parse (text : string) : M jsval :=
  match JSON_parse text with
  | Some v => mret v
  | None => throw SyntaxError
  end.

Definition setItem (key value : string) : M unit := fun s =>
  if storage_accepts key value then
    {| result := Ok tt;
       final := {| app := app s;
                   localStorage := <[key := value]> (localStorage s) |};
       emitted := [SetItem key value] |}
  else {| result := Throw QuotaExceededError; final := s; emitted := [] |}.

(** The callback of [vessels.map] in [loadVesselsFromStorage]:
    [v => ({ aisId: v.aisId, boatId: v.boatId, fishermanName: v.fishermanName })] *)
Definition vessel_details (v : jsval) : outcome jsval :=
  match get_field v "aisId" with
  | Throw e => Throw e
  | Ok a =>
      match get_field v "boatId" with
      | Throw e => Throw e
      | Ok b =>
          match get_field v "fishermanName" with
          | Throw e => Throw e
          | Ok n =>
              Ok (VObj (list_to_map
                    [("aisId", a); ("boatId", b); ("fishermanName", n)]))
          end
      end
  end.

(** [loadVesselsFromStorage] (App.tsx, lines 74-90) *)
Definition loadVesselsFromStorage : M unit :=
  storedVessels ← getItem mirror_key;
  match storedVessels with
  | Some text =>
      if truthy text then
        try_catch
          (vessels ← parse text;
           lift (require_object_coercible vessels);;
           console_log "Loading vessels from storage:";;
           elements ← lift (array_method vessels);
           lift (map_throwing vessel_details elements);;
           console_log "Vessel details:";;
           setAllBoats elements)
          (fun _ =>
             console_error "Error loading stored vessels:";;
             setAllBoats [])
      else
        console_log "No vessels found in storage";;
        setAllBoats []
  | None =>
      console_log "No vessels found in storage";;
      setAllBoats []
  end.

(** The object literal [newBoat] of [handleFishermanRegistration]; [t1] and
    [t2] are what its two calls of [Date.now()] return. *)
Definition newBoat (aisId boatId fishermanName contactInfo : string)
    (t1 t2 : number) : BoatData.t :=
  {| BoatData.aisId := aisId;
     BoatData.boatId := boatId;
     BoatData.location := {| lat := 0%float; lng := 0%float; timestamp := t1 |};
     BoatData.status := safe;
     BoatData.speed := 0%float;
     BoatData.heading := 0%float;
     BoatData.lastUpdate := t2;
     BoatData.fishermanName := Some fishermanName;
     BoatData.contactInfo := Some contactInfo |}.

(** Replace the entry at the index [findIndex] found, or [push]. *)
Definition put_at (existingIndex : option nat) (boat : jsval)
    (vessels : list jsval) : list jsval :=
  match existingIndex with
  | Some i => <[i := boat]> vessels
  | None => vessels ++ [boat]
  end.

(** The vessels read back before a registration (App.tsx, lines 197-207):
    the parsed content of the mirror key, or the empty array when the key is
    missing or its content does not parse. *)
Definition stored_or_empty : M jsval :=
  storedVessels ← getItem mirror_key;
  match storedVessels with
  | Some text =>
      if truthy text then
        try_catch (parse text)
          (fun _ =>
             console_error "Error parsing stored vessels:";;
             mret (VArr []))
      else mret (VArr [])
  | None => mret (VArr [])
  end.

(** [handleFishermanRegistration] (App.tsx, lines 178-247) *)
Definition handleFishermanRegistration
    (aisId boatId fishermanName contactInfo : string) (t1 t2 : number)
  : M unit :=
  let newBoat := newBoat aisId boatId fishermanName contactInfo t1 t2 in
  setBoatData (Some newBoat);;
  setIsRegistered true;;
  setIsTracking true;;
  vessels ← stored_or_empty;
  elements ← lift (array_method vessels);
  existingIndex ← lift (findIndex_aisId aisId elements);
  let vessels := put_at existingIndex (boat_json newBoat) elements in
  setItem mirror_key (JSON_stringify (VArr vessels));;
  dispatchEvent broadcast;;
  a ← read_state;
  existingBoatIndex ← lift (findIndex_aisId aisId (allBoats a));
  setAllBoats (put_at existingBoatIndex (boat_json newBoat) (allBoats a));;
  console_log "New vessel registered:".

(** The callback of [prev.map] in [updateLocation] and [updateBoatStatus]:
    [boat => boat.aisId === boatData.aisId ? updatedBoat : boat] *)
Definition replace_matching (id : string) (updatedBoat : jsval) (boat : jsval)
  : outcome jsval :=
  match get_field boat "aisId" with
  | Throw e => Throw e
  | Ok v => Ok (if strict_eq_string v id then updatedBoat else boat)
  end.

(** The updater passed to [setAllBoats] by the three update handlers: it maps
    over the previous list, writes the result to the mirror, dispatches the
    event and returns the result as the new list. *)
Definition write_back (f : jsval -> outcome jsval) : M unit :=
  a ← read_state;
  updated ← lift (map_throwing f (allBoats a));
  setItem mirror_key (JSON_stringify (VArr updated));;
  dispatchEvent broadcast;;
  setAllBoats updated.

(** [updateLocation] (App.tsx, lines 251-284) *)
Definition updateLocation (lat lng : number) (t1 t2 : number) : M unit :=
  a ← read_state;
  match boatData a with
  | Some boatData =>
      let updatedBoat :=
        BoatData.with_location boatData
          {| App.lat := lat; App.lng := lng; timestamp := t1 |} t2 in
      console_log "Fisherman location updated:";;
      setBoatData (Some updatedBoat);;
      write_back
        (replace_matching (BoatData.aisId boatData) (boat_json updatedBoat))
  | None => mret tt
  end.

(** [updateBoatStatus] (App.tsx, lines 295-315) *)
Definition updateBoatStatus (status : Status) : M unit :=
  a ← read_state;
  match boatData a with
  | Some boatData =>
      let updatedBoat := BoatData.with_status boatData status in
      setBoatData (Some updatedBoat);;
      write_back
        (replace_matching (BoatData.aisId boatData) (boat_json updatedBoat))
  | None => mret tt
  end.

(** The callback of [prev.map] in [updateBoatStatusByCoastGuard]:
    [boat => boat.aisId === aisId ? { ...boat, status } : boat] *)
Definition restatus_matching (aisId : string) (status : Status) (boat : jsval)
  : outcome jsval :=
  match get_field boat "aisId" with
  | Throw e => Throw e
  | Ok v =>
      Ok (if strict_eq_string v aisId
          then spread_with boat "status" (VStr (status_string status))
          else boat)
  end.

(** [updateBoatStatusByCoastGuard] (App.tsx, lines 345-363) *)
Definition updateBoatStatusByCoastGuard (aisId : string) (status : Status)
  : M unit :=
  closure ← read_state;
  write_back (restatus_matching aisId status);;
  match boatData closure with
  | Some b =>
      if bool_decide (BoatData.aisId b = aisId) then
        prev ← read_state;
        setBoatData
          (match boatData prev with
           | Some p => Some (BoatData.with_status p status)
           | None => None
           end)
      else mret tt
  | None => mret tt
  end.

(** [updateCoastGuardLocation] (App.tsx, lines 142-164); an argument that is
    [undefined] is [None]. *)
Definition updateCoastGuardLocation (lat lng : number)
    (speed heading : option number) (t1 t2 : number) : M unit :=
  a ← read_state;
  match coastGuardVessel a with
  | Some coastGuardVessel =>
      let updatedVessel :=
        CoastGuardVessel.with_fix coastGuardVessel
          {| App.lat := lat; App.lng := lng; timestamp := t1 |}
          (default (CoastGuardVessel.speed coastGuardVessel) speed)
          (default (CoastGuardVessel.heading coastGuardVessel) heading)
          t2 in
      console_log "Coast Guard location updated:";;
      setCoastGuardVessel (Some updatedVessel)
  | None => mret tt
  end.

(** [toggleCoastGuardTracking] (App.tsx, lines 166-174) *)
Definition toggleCoastGuardTracking (enabled : bool) : M unit :=
  a ← read_state;
  setIsCoastGuardTracking enabled;;
  match coastGuardVessel a with
  | Some coastGuardVessel =>
      setCoastGuardVessel
        (Some (CoastGuardVessel.with_isTracking coastGuardVessel enabled))
  | None => mret tt
  end.

(** One call of [handleFishermanRegistration]: its arguments and the two
    readings of the clock. *)
Record Registration := {
  reg_aisId : string;
  reg_boatId : string;
  reg_fishermanName : string;
  reg_contactInfo : string;
  reg_t1 : number;
  reg_t2 : number
}.

Definition register (c : Registration) : M unit :=
  handleFishermanRegistration (reg_aisId c) (reg_boatId c)
    (reg_fishermanName c) (reg_contactInfo c) (reg_t1 c) (reg_t2 c).

Definition registered (c : Registration) : BoatData.t :=
  newBoat (reg_aisId c) (reg_boatId c) (reg_fishermanName c)
    (reg_contactInfo c) (reg_t1 c) (reg_t2 c).

(** A sequence of registrations, one after the other. *)
Fixpoint register_all (calls : list Registration) : M unit :=
  match calls with
  | [] => mret tt
  | c :: rest => register c;; register_all rest
  end.

(** The list a view shows when it reloads after the registrations. *)
Definition readAll_after (calls : list Registration) (s : Sys) : Run unit :=
  (register_all calls;; loadVesselsFromStorage) s.

(** A freshly loaded page on a browser profile with an empty storage. *)
Definition fresh : Sys := {| app := initial_state; localStorage := ∅ |}.

(** Three registrations: two vessels, the first of them registered again. *)
Definition example_calls : list Registration :=
  [ {| reg_aisId := "AIS-1"; reg_boatId := "VESSEL-001";
       reg_fishermanName := "Captain Smith"; reg_contactInfo := "+1-555-0101";
       reg_t1 := 1000%float; reg_t2 := 1000%float |};
    {| reg_aisId := "AIS-2"; reg_boatId := "VESSEL-002";
       reg_fishermanName := "Captain Jones"; reg_contactInfo := "+1-555-0102";
       reg_t1 := 2000%float; reg_t2 := 2001%float |};
    {| reg_aisId := "AIS-1"; reg_boatId := "VESSEL-003";
       reg_fishermanName := "Captain Smith"; reg_contactInfo := "+1-555-0103";
       reg_t1 := 3000%float; reg_t2 := 3000%float |} ].

(** A registered boat used in the examples. *)
Definition example_boat : BoatData.t :=
  {| BoatData.aisId := "123456789";
     BoatData.boatId := "VESSEL-001";
     BoatData.location :=
       {| lat := 12.5%float; lng := 80.25%float; timestamp := 1000%float |};
     BoatData.status := safe;
     BoatData.speed := 0%float;
     BoatData.heading := 0%float;
     BoatData.lastUpdate := 1000%float;
     BoatData.fishermanName := Some "Captain Smith";
     BoatData.contactInfo := Some "+1-555-0101" |}.

(** A fisherman session in which [example_boat] is registered. *)
Definition example_session : Sys :=
  {| app :=
       {| userType := Some fisherman; isRegistered := true;
          boatData := Some example_boat;
          allBoats := [boat_json example_boat]; isTracking := true;
          coastGuardVessel := None; isCoastGuardTracking := false |};
     localStorage := ∅ |}.

(** The list a reload shows for a given content of the mirror key: the parsed
    array when the content is a JSON array whose elements can be read,
    otherwise the empty list. *)
Definition shown (content : option string) : list jsval :=
  match content with
  | Some text =>
      if truthy text then
        match JSON_parse text with
        | Some (VArr l) => if existsb nullish l then [] else l
        | _ => []
        end
      else []
  | None => []
  end.

(** The mirror key holds the vessel list [boats]. *)
Definition mirror_holds (content : option string) (boats : list BoatData.t)
  : Prop :=
  (content = None /\ boats = []) \/
  content = Some (JSON_stringify (VArr (boat_json <$> boats))).

(** The content of the mirror key is absent, empty, rejected by [JSON.parse],
    or an array none of whose elements is [null]. *)
Definition mirror_well_formed (content : option string) : bool :=
  match content with
  | Some text =>
      if truthy text then
        match JSON_parse text with
        | Some (VArr l) => negb (existsb nullish l)
        | Some _ => false
        | None => true
        end
      else true
  | None => true
  end.

End Platform.

(** *** The upsert of the specification *)

(** "Reads the full list, replaces the entry whose identifier matches, or
    appends if absent." *)
Fixpoint upsert (b : BoatData.t) (boats : list BoatData.t)
  : list BoatData.t :=
  match boats with
  | [] => [b]
  | x :: rest =>
      if bool_decide (BoatData.aisId x = BoatData.aisId b) then b :: rest
      else x :: upsert b rest
  end.

Definition upsert_all (calls : list Registration) : list BoatData.t :=
  foldl (fun boats c => upsert (registered c) boats) [] calls.

(** [b] is the record of the last registration of its identifier. *)
Definition last_write (b : BoatData.t) (calls : list Registration) : Prop :=
  exists (earlier : list Registration) c (later : list Registration),
    calls = earlier ++ c :: later /\
    b = registered c /\
    Forall (fun c' => reg_aisId c' <> reg_aisId c) later.

(** A number that [JSON.stringify] prints and [JSON.parse] reads back as the
    same number: finite, and not the negative zero (printed as [0]). *)
Definition json_number (x : number) : bool :=
  match classify x with
  | NaN | PInf | NInf | NZero => false
  | PNormal | NNormal | PSubn | NSubn | PZero => true
  end.

Definition json_exact (b : BoatData.t) : bool :=
  json_number (lat (BoatData.location b))
  && json_number (lng (BoatData.location b))
  && json_number (timestamp (BoatData.location b))
  && json_number (BoatData.speed b)
  && json_number (BoatData.heading b)
  && json_number (BoatData.lastUpdate b).

End App.


(** ** The geolocation API of the browser *)

Module Geolocation.

(** [GeolocationCoordinates]; a property that is [null] is [None]. *)
Record Coordinates := {
  latitude : number;
  longitude : number;
  accuracy : number;
  speed : option number;
  heading : option number
}.

Record Position := { coords : Coordinates; timestamp : number }.

(** [GeolocationPositionError]: code 1 is PERMISSION_DENIED, 2 is
    POSITION_UNAVAILABLE, 3 is TIMEOUT. *)
Record PositionError := { code : nat; message : string }.

(** The times are in milliseconds. *)
Record PositionOptions := {
  enableHighAccuracy : bool;
  timeout : Z;
  maximumAge : Z
}.

(** [navigator.geolocation]: whether the object exists, the identifiers of
    the watches that are open, and the next identifier [watchPosition]
    returns. *)
Record Navigator := {
  available : bool;
  watches : list nat;
  next_watch : nat
}.

Definition navigator (available : bool) : Navigator :=
  {| available := available; watches := []; next_watch := 1 |}.

Definition watchPosition (n : Navigator) : nat * Navigator :=
  (next_watch n,
   {| available := available n;
      watches := watches n ++ [next_watch n];
      next_watch := S (next_watch n) |}).

Definition clearWatch (id : nat) (n : Navigator) : Navigator :=
  {| available := available n;
     watches := filter (fun w => w <> id) (watches n);
     next_watch := next_watch n |}.

End Geolocation.

(** ** The shared position source: [utils/sharedGeolocation.ts] *)

Module SharedGeolocation.

Import Geolocation.

(** A callback is known by its identity: a JavaScript [Set] of functions
    compares them by reference. *)
Definition Callback := nat.

(** [Set.prototype.add], [delete] and [has] on a set kept in insertion
    order. *)
Definition set_add (x : Callback) (l : list Callback) : list Callback :=
  if bool_decide (x ∈ l) then l else l ++ [x].

Definition set_delete (x : Callback) (l : list Callback) : list Callback :=
  filter (fun y => y <> x) l.

Definition set_has (x : Callback) (l : list Callback) : bool :=
  bool_decide (x ∈ l).

(** The fields of [SharedGeolocationService]. *)
Record Service := {
  currentPosition : option Position;
  callbacks : list Callback;
  errorCallbacks : list Callback;
  watchId : option nat;
  isWatching : bool
}.

Definition new_service : Service :=
  {| currentPosition := None; callbacks := []; errorCallbacks := [];
     watchId := None; isWatching := false |}.

(** The singleton and the browser object it drives. *)
Record World := { service : Service; browser : Navigator }.

Definition initial (available : bool) : World :=
  {| service := new_service; browser := navigator available |}.

(** Calls the service makes into its subscribers, and its console lines. *)
Inductive Event :=
  | CallPosition (callback : Callback) (position : Position)
  | CallError (callback : Callback) (error : PositionError)
  | Console (label : string).

Definition watch_options : PositionOptions :=
  {| enableHighAccuracy := true; timeout := 15000; maximumAge := 3000 |}%Z.

(** [startWatching] (lines 17-54) *)
Definition startWatching (w : World) : World * list Event :=
  if isWatching (service w) || negb (available (browser w)) then (w, [])
  else
    let (id, browser') := watchPosition (browser w) in
    ({| service :=
          {| currentPosition := currentPosition (service w);
             callbacks := callbacks (service w);
             errorCallbacks := errorCallbacks (service w);
             watchId := Some id;
             isWatching := true |};
        browser := browser' |},
     [Console "Starting shared geolocation service..."]).

(** [stopWatching] (lines 56-63) *)
Definition stopWatching (w : World) : World * list Event :=
  ({| service :=
        {| currentPosition := currentPosition (service w);
           callbacks := callbacks (service w);
           errorCallbacks := errorCallbacks (service w);
           watchId := None;
           isWatching := false |};
      browser :=
        match watchId (service w) with
        | Some id => clearWatch id (browser w)
        | None => browser w
        end |},
   [Console "Stopped shared geolocation service"]).

(** The function [subscribe] returns: the empty function of the duplicate
    branch, or the closure over the two callbacks. *)
Inductive Unsubscribe :=
  | Nothing
  | Remove (onPosition onError : Callback).

Definition with_callbacks (s : Service) (cs es : list Callback) : Service :=
  {| currentPosition := currentPosition s; callbacks := cs;
     errorCallbacks := es; watchId := watchId s;
     isWatching := isWatching s |}.

(** [subscribe] (lines 65-98) *)
Definition subscribe (onPosition onError : Callback) (w : World)
  : Unsubscribe * World * list Event :=
  if set_has onPosition (callbacks (service w)) then
    (Nothing, w,
     [Console "Duplicate geolocation subscription detected, ignoring..."])
  else
    let w1 :=
      {| service :=
           with_callbacks (service w)
             (set_add onPosition (callbacks (service w)))
             (set_add onError (errorCallbacks (service w)));
         browser := browser w |} in
    let sent :=
      match currentPosition (service w1) with
      | Some position => [CallPosition onPosition position]
      | None => []
      end in
    let (w2, started) :=
      if negb (isWatching (service w1)) then startWatching w1 else (w1, []) in
    (Remove onPosition onError, w2, sent ++ started).

(** A call of the function that [subscribe] returned. *)
Definition unsubscribe (u : Unsubscribe) (w : World) : World * list Event :=
  match u with
  | Nothing => (w, [])
  | Remove onPosition onError =>
      let w1 :=
        {| service :=
             with_callbacks (service w)
               (set_delete onPosition (callbacks (service w)))
               (set_delete onError (errorCallbacks (service w)));
           browser := browser w |} in
      if bool_decide (length (callbacks (service w1)) = 0)
      then stopWatching w1
      else (w1, [])
  end.

(** The success callback given to [watchPosition] (lines 26-37). *)
Definition on_position (position : Position) (w : World)
  : World * list Event :=
  ({| service :=
        {| currentPosition := Some position;
           callbacks := callbacks (service w);
           errorCallbacks := errorCallbacks (service w);
           watchId := watchId (service w);
           isWatching := isWatching (service w) |};
      browser := browser w |},
   Console "Shared location update:"
   :: ((fun callback => CallPosition callback position)
       <$> callbacks (service w))).

(** The error callback given to [watchPosition] (lines 38-47). *)
Definition on_error (error : PositionError) (w : World)
  : World * list Event :=
  (w,
   Console "Shared geolocation error:"
   :: ((fun callback => CallError callback error)
       <$> errorCallbacks (service w))).

(** What can happen to the service: a consumer subscribes, a consumer calls
    a function that some [subscribe] returned, the browser delivers a sample
    or an error. *)
Inductive Op :=
  | Subscribe (onPosition onError : Callback)
  | Unsubscribes (u : Unsubscribe)
  | Sample (position : Position)
  | Failure (error : PositionError).

Definition step (o : Op) (w : World) : World * list Event :=
  match o with
  | Subscribe onPosition onError =>
      let '(_, w', es) := subscribe onPosition onError w in (w', es)
  | Unsubscribes u => unsubscribe u w
  | Sample position => on_position position w
  | Failure error => on_error error w
  end.

Definition run (ops : list Op) (w : World) : World :=
  foldl (fun w o => fst (step o w)) w ops.

(** The number of hardware watches the page holds open. *)
Definition open_watches (w : World) : nat := length (watches (browser w)).



Definition is_call (e : Event) : bool :=
  match e with
  | CallPosition _ _ | CallError _ _ => true
  | Console _ => false
  end.

(** [getCurrentPosition] (lines 100-102) *)
Definition getCurrentPosition (w : World) : option Position :=
  currentPosition (service w).


(** The sample the browser delivered last in a sequence of events, [earlier]
    when it delivered none. *)
Fixpoint last_sample (ops : list Op) (earlier : option Position)
  : option Position :=
  match ops with
  | [] => earlier
  | Sample position :: rest => last_sample rest (Some position)
  | _ :: rest => last_sample rest earlier
  end.

Definition example_position : Position :=
  {| coords :=
       {| latitude := 12.5%float; longitude := 80.25%float;
          accuracy := 8%float; speed := Some 0%float; heading := None |};
     timestamp := 5000%float |}.

End SharedGeolocation.

(** ** The location trackers: [CoastGuardLocationTracker.tsx] and
    [LocationTracker.tsx] *)

Module Tracker.

Import Geolocation.

(** The two components differ in what they pass to [onLocationUpdate]: the
    coast-guard tracker passes latitude, longitude, speed and heading, the
    fisherman's tracker latitude and longitude only. *)
Inductive Kind := Fisherman | CoastGuard.

Inductive LocationStatus :=
  | requesting
  | granted
  | denied
  | unavailable
  | timeout.

(** The [useState] cells of a tracker. The fisherman's tracker has no
    [speed] and no [heading] cell; here they stay at their initial value. *)
Record State := {
  locationStatus : LocationStatus;
  accuracy : number;
  lastUpdate : number;
  speed : number;
  heading : number;
  errorMessage : string;
  retryAttempts : nat
}.

Definition initial_state : State :=
  {| locationStatus := requesting; accuracy := 0%float;
     lastUpdate := 0%float; speed := 0%float; heading := 0%float;
     errorMessage := ""; retryAttempts := 0 |}.

(** What [checkGeolocationSupport] reads besides [navigator]. *)
Record Window := { isSecureContext : bool; hostname : string }.

(** A mounted tracker: its state, the value of the [isTracking] prop at the
    last commit (the only dependency of its effect), the watch whose cleanup
    is pending, and the browser's geolocation object. *)
Record Component := {
  kind : Kind;
  state : State;
  isTracking : bool;
  watch : option nat;
  browser : Navigator
}.

(** What a tracker does to the outside. *)
Inductive Effect :=
  | GetCurrentPosition (options : PositionOptions)
  | WatchPosition (id : nat) (options : PositionOptions)
  | ClearWatch (id : nat)
  | OnLocationUpdate (lat lng : number) (speed heading : option number)
  | Console (label : string).

Definition is_request (e : Effect) : bool :=
  match e with
  | GetCurrentPosition _ | WatchPosition _ _ => true
  | ClearWatch _ | OnLocationUpdate _ _ _ _ | Console _ => false
  end.

(** [checkGeolocationSupport] (utils/geolocationDebug.ts, lines 27-46) *)
Definition checkGeolocationSupport (win : Window) (nav : Navigator)
  : bool * string :=
  if negb (available nav) then
    (false, "Geolocation is not supported by this browser.")
  else if negb (isSecureContext win)
          && negb (bool_decide (hostname win = "localhost")) then
    (false, "Geolocation requires a secure connection (HTTPS).")
  else (true, "Geolocation is supported and ready.").

(** [getGeolocationErrorMessage] (utils/geolocationDebug.ts, lines 16-25) *)
Definition getGeolocationErrorMessage (error : PositionError) : string :=
  match code error with
  | 1 => "Location access was denied. Please check your browser permissions."
  | 2 => "Location information is unavailable. Check your GPS signal."
  | 3 => "Location request timed out. Please try again."
  | c =>
      "Unknown geolocation error (" +:+ pretty c +:+ "): " +:+ message error
  end.

Definition one_shot_options : PositionOptions :=
  {| enableHighAccuracy := true; Geolocation.timeout := 5000;
     maximumAge := 0 |}%Z.

Definition watch_options : PositionOptions :=
  {| enableHighAccuracy := true; Geolocation.timeout := 10000;
     maximumAge := 1000 |}%Z.

(** [position.coords.speed !== null ? position.coords.speed * 1.94384 : 0] *)
Definition speedKnots (c : Coordinates) : number :=
  match Geolocation.speed c with
  | Some v => (v * 1.94384)%float
  | None => 0%float
  end.

(** [position.coords.heading !== null ? position.coords.heading : 0] *)
Definition headingDegrees (c : Coordinates) : number :=
  match Geolocation.heading c with
  | Some h => h
  | None => 0%float
  end.

(** The state writes and the call of [onLocationUpdate] that both success
    callbacks make. *)
Definition fix_state (k : Kind) (position : Position) (now : number)
    (st : State) : State :=
  {| locationStatus := granted;
     accuracy := Geolocation.accuracy (coords position);
     lastUpdate := now;
     speed :=
       match k with
       | CoastGuard => speedKnots (coords position)
       | Fisherman => speed st
       end;
     heading :=
       match k with
       | CoastGuard => headingDegrees (coords position)
       | Fisherman => heading st
       end;
     errorMessage := errorMessage st;
     retryAttempts := retryAttempts st |}.

Definition location_update (k : Kind) (position : Position) : Effect :=
  match k with
  | CoastGuard =>
      OnLocationUpdate (latitude (coords position))
        (longitude (coords position))
        (Some (speedKnots (coords position)))
        (Some (headingDegrees (coords position)))
  | Fisherman =>
      OnLocationUpdate (latitude (coords position))
        (longitude (coords position)) None None
  end.

(** The success callback of [getCurrentPosition] (lines 49-71). *)
Definition getCurrentPosition_success (k : Kind) (position : Position)
    (now : number) (st : State) : State * list Effect :=
  (fix_state k position now st,
   [Console "Got immediate location!"; location_update k position]).

(** The error callback of [getCurrentPosition] (lines 72-81): it only
    warns, "watchPosition might succeed". *)
Definition getCurrentPosition_error (error : PositionError) (st : State)
  : State * list Effect :=
  (st, [Console "immediate position failed, will wait for watchPosition:"]).

(** The success callback of [watchPosition] (lines 91-119). *)
Definition watchPosition_success (k : Kind) (position : Position)
    (now : number) (st : State) : State * list Effect :=
  (fix_state k position now st,
   [Console "Live GPS update:"; location_update k position]).

Definition with_error (st : State) (status : LocationStatus)
    (message : string) (attempts : nat) : State :=
  {| locationStatus := status; accuracy := accuracy st;
     lastUpdate := lastUpdate st; speed := speed st; heading := heading st;
     errorMessage := message; retryAttempts := attempts |}.

(** The error callback of [watchPosition] (lines 120-151). *)
Definition watchPosition_error (error : PositionError) (st : State)
  : State * list Effect :=
  let errorMessage := getGeolocationErrorMessage error in
  match code error with
  | 1 =>
      (with_error st denied errorMessage (retryAttempts st),
       [Console "GPS error details:";
        Console "Location permission denied by user"])
  | 2 =>
      (with_error st unavailable errorMessage (retryAttempts st),
       [Console "GPS error details:"; Console "GPS position unavailable"])
  | 3 =>
      (with_error st timeout errorMessage (S (retryAttempts st)),
       [Console "GPS error details:"; Console "GPS request timed out"])
  | _ =>
      (with_error st denied errorMessage (retryAttempts st),
       [Console "GPS error details:"; Console "Unknown geolocation error:"])
  end.

(** [handleRetry] (lines 164-168) *)
Definition handleRetry (st : State) : State :=
  with_error st requesting "" 0.

Definition with_state (c : Component) (st : State) : Component :=
  {| kind := kind c; state := st; isTracking := isTracking c;
     watch := watch c; browser := browser c |}.

(** The body of [useEffect(..., [isTracking])] (lines 30-162), run with the
    prop [tracking]; the watch it opens is the one its cleanup closes. *)
Definition tracking_effect (win : Window) (tracking : bool) (c : Component)
  : Component * list Effect :=
  if negb tracking then
    ({| kind := kind c; state := state c; isTracking := tracking;
        watch := None; browser := browser c |}, [])
  else
    let (supported, message) := checkGeolocationSupport win (browser c) in
    if negb supported then
      ({| kind := kind c;
          state :=
            with_error (state c) unavailable message
              (retryAttempts (state c));
          isTracking := tracking; watch := None; browser := browser c |},
       [Console "tracking initiated"])
    else
      let (id, browser') := watchPosition (browser c) in
      ({| kind := kind c; state := state c; isTracking := tracking;
          watch := Some id; browser := browser' |},
       [Console "tracking initiated"; Console "Requesting LIVE GPS location...";
        GetCurrentPosition one_shot_options; WatchPosition id watch_options]).

(** The cleanup the effect returned: [clearWatch(watchId)]. *)
Definition cleanup (c : Component) : Component * list Effect :=
  match watch c with
  | Some id =>
      ({| kind := kind c; state := state c; isTracking := isTracking c;
          watch := None; browser := clearWatch id (browser c) |},
       [ClearWatch id])
  | None => (c, [])
  end.

(** A render with the prop [tracking]. React runs the cleanup and the effect
    again only when a dependency changed, and the only dependency is
    [isTracking]. *)
Definition render (win : Window) (tracking : bool) (c : Component)
  : Component * list Effect :=
  if bool_decide (tracking = isTracking c) then (c, [])
  else
    let (c1, closed) := cleanup c in
    let (c2, opened) := tracking_effect win tracking c1 in
    (c2, closed ++ opened).

(** The first render: the effect runs. *)
Definition mount (win : Window) (k : Kind) (tracking : bool)
    (nav : Navigator) : Component * list Effect :=
  tracking_effect win tracking
    {| kind := k; state := initial_state; isTracking := tracking;
       watch := None; browser := nav |}.

(** What can happen to a mounted tracker: the parent renders it again (after
    a poll or a reload of the vessel list, or with the tracking checkbox
    toggled), the browser answers the one-shot request or the watch, the
    user presses the retry button. *)
Inductive Input :=
  | Render (tracking : bool)
  | OneShotSuccess (position : Position) (now : number)
  | OneShotError (error : PositionError)
  | WatchSuccess (position : Position) (now : number)
  | WatchError (error : PositionError)
  | Retry.

(** A state write is followed by a render with the props unchanged. *)
Definition commit (win : Window) (c : Component)
    (written : State * list Effect) : Component * list Effect :=
  let (c', effects) := render win (isTracking c) (with_state c (fst written)) in
  (c', snd written ++ effects).

Definition step (win : Window) (i : Input) (c : Component)
  : Component * list Effect :=
  match i with
  | Render tracking => render win tracking c
  | OneShotSuccess position now =>
      commit win c (getCurrentPosition_success (kind c) position now (state c))
  | OneShotError error => commit win c (getCurrentPosition_error error (state c))
  | WatchSuccess position now =>
      commit win c (watchPosition_success (kind c) position now (state c))
  | WatchError error => commit win c (watchPosition_error error (state c))
  | Retry => commit win c (handleRetry (state c), [])
  end.

(** The component after a sequence of inputs, and everything it did. *)
Fixpoint run (win : Window) (inputs : list Input) (c : Component)
  : Component * list Effect :=
  match inputs with
  | [] => (c, [])
  | i :: rest =>
      let (c1, first) := step win i c in
      let (c2, others) := run win rest c1 in
      (c2, first ++ others)
  end.

(** The timeouts the watch reported since the retry button was last pressed,
    on top of [counted] earlier ones. *)
Fixpoint timeouts_since_retry (inputs : list Input) (counted : nat) : nat :=
  match inputs with
  | [] => counted
  | Retry :: rest => timeouts_since_retry rest 0
  | WatchError error :: rest =>
      timeouts_since_retry rest
        (if bool_decide (code error = 3) then S counted else counted)
  | _ :: rest => timeouts_since_retry rest counted
  end.

(** The tracker holds the watch of its effect and no other: that watch is
    the only one open, and there is one exactly while tracking is enabled on
    a page where geolocation is supported. *)
Definition holds_its_watch (win : Window) (c : Component) : Prop :=
  watches (browser c)
  = match watch c with Some id => [id] | None => [] end /\
  (is_Some (watch c) <->
   isTracking c = true /\
   fst (checkGeolocationSupport win (browser c)) = true).

Definition secure_page : Window :=
  {| isSecureContext := true; hostname := "example.org" |}.

Definition permission_denied : PositionError :=
  {| code := 1; message := "User denied Geolocation" |}.

Definition timed_out : PositionError :=
  {| code := 3; message := "Timeout expired" |}.

(** A sample that reports a speed of 5 m/s and no heading. *)
Definition moving : Position :=
  {| coords :=
       {| latitude := 12.5%float; longitude := 80.25%float;
          Geolocation.accuracy := 8%float;
          Geolocation.speed := Some 5%float;
          Geolocation.heading := None |};
     timestamp := 5000%float |}.

(** A sample that reports a speed of 0 and no heading. *)
Definition at_rest : Position :=
  {| coords :=
       {| latitude := 12.5%float; longitude := 80.25%float;
          Geolocation.accuracy := 8%float;
          Geolocation.speed := Some 0%float;
          Geolocation.heading := None |};
     timestamp := 5000%float |}.

End Tracker.

(** ** The trackers in the view: the [onLocationUpdate] props of [App.tsx] *)

Module View.

Import App.

Section Platform.

Variable JSON_stringify : jsval -> string.
Variable storage_accepts : string -> string -> bool.

(** [<CoastGuardLocationTracker onLocationUpdate={updateCoastGuardLocation}/>]
    and [<LocationTracker onLocationUpdate={updateLocation}/>]: the
    fisherman's handler takes the first two arguments. [t1] and [t2] are the
    clock readings of the handler. *)
Definition onLocationUpdate (k : Tracker.Kind) (lat lng : number)
    (speed heading : option number) (t1 t2 : number) : M unit :=
  match k with
  | Tracker.CoastGuard => updateCoastGuardLocation lat lng speed heading t1 t2
  | Tracker.Fisherman =>
      updateLocation JSON_stringify storage_accepts lat lng t1 t2
  end.

Fixpoint deliver (k : Tracker.Kind) (effects : list Tracker.Effect)
    (t1 t2 : number) : M unit :=
  match effects with
  | [] => mret tt
  | Tracker.OnLocationUpdate lat lng speed heading :: rest =>
      onLocationUpdate k lat lng speed heading t1 t2;;
      deliver k rest t1 t2
  | _ :: rest => deliver k rest t1 t2
  end.

(** A sample of the watch, folded into the record of the view. *)
Definition fold_sample (k : Tracker.Kind) (position : Geolocation.Position)
    (now t1 t2 : number) (st : Tracker.State) : M unit :=
  deliver k (snd (Tracker.watchPosition_success k position now st)) t1 t2.

End Platform.

(** A coast-guard session with its vessel record. *)
Definition example_patrol : Sys :=
  {| app :=
       {| userType := Some coastguard; isRegistered := false;
          boatData := None; allBoats := []; isTracking := false;
          coastGuardVessel :=
            Some {| CoastGuardVessel.vesselId := "CG-A1B2C3";
                    CoastGuardVessel.vesselName := "Coast Guard Patrol Vessel";
                    CoastGuardVessel.location :=
                      {| lat := 0%float; lng := 0%float;
                         timestamp := 1000%float |};
                    CoastGuardVessel.speed := 0%float;
                    CoastGuardVessel.heading := 0%float;
                    CoastGuardVessel.lastUpdate := 1000%float;
                    CoastGuardVessel.isTracking := true |};
          isCoastGuardTracking := true |};
     localStorage := ∅ |}.

End View.

(** ** A codec for vessel lists

    An implementation of the two JSON built-ins on arrays of vessel records,
    with which the assumptions made about the browser can be met: a vessel
    list is printed as the binary digits of its code and read back from
    them. *)

Module Codec.

Import App.

#[export] Instance spec_float_eq_dec : EqDecision spec_float.
Proof. solve_decision. Defined.

Definition spec_float_code (x : spec_float)
  : bool + bool + unit + bool * positive * Z :=
  match x with
  | S754_zero s => inl (inl (inl s))
  | S754_infinity s => inl (inl (inr s))
  | S754_nan => inl (inr tt)
  | S754_finite s m e => inr (s, m, e)
  end.

Definition spec_float_of_code (c : bool + bool + unit + bool * positive * Z)
  : spec_float :=
  match c with
  | inl (inl (inl s)) => S754_zero s
  | inl (inl (inr s)) => S754_infinity s
  | inl (inr _) => S754_nan
  | inr (s, m, e) => S754_finite s m e
  end.

#[export] Instance spec_float_countable : Countable spec_float.
Proof.
  apply (inj_countable' spec_float_code spec_float_of_code). by intros [].
Defined.

#[export] Instance float_eq_dec : EqDecision float.
Proof.
  intros x y. destruct (decide (Prim2SF x = Prim2SF y)) as [H|H].
  - left. rewrite <- (SF2Prim_Prim2SF x), <- (SF2Prim_Prim2SF y). by rewrite H.
  - right. intros ->. done.
Defined.

#[export] Instance float_countable : Countable float.
Proof. apply (inj_countable' Prim2SF SF2Prim). apply SF2Prim_Prim2SF. Defined.

#[export] Instance Status_eq_dec : EqDecision Status.
Proof. solve_decision. Defined.

#[export] Instance Location_eq_dec : EqDecision Location.
Proof. solve_decision. Defined.

#[export] Instance BoatData_eq_dec : EqDecision BoatData.t.
Proof. solve_decision. Defined.

Definition status_of_string (s : string) : option Status :=
  if bool_decide (s = "safe") then Some safe
  else if bool_decide (s = "warning") then Some warning
  else if bool_decide (s = "danger") then Some danger
  else None.

Definition boat_code (b : BoatData.t)
  : string * string * (float * float * float) * string
    * (float * float * float) * (option string * option string) :=
  (BoatData.aisId b, BoatData.boatId b,
   (lat (BoatData.location b), lng (BoatData.location b),
    timestamp (BoatData.location b)),
   status_string (BoatData.status b),
   (BoatData.speed b, BoatData.heading b, BoatData.lastUpdate b),
   (BoatData.fishermanName b, BoatData.contactInfo b)).

Definition boat_of_code
    (c : string * string * (float * float * float) * string
         * (float * float * float) * (option string * option string))
  : option BoatData.t :=
  match c with
  | (a, bi, (la, ln, ts), st, (sp, hd, lu), (n, ct)) =>
      match status_of_string st with
      | Some st =>
          Some {| BoatData.aisId := a; BoatData.boatId := bi;
                  BoatData.location :=
                    {| lat := la; lng := ln; timestamp := ts |};
                  BoatData.status := st; BoatData.speed := sp;
                  BoatData.heading := hd; BoatData.lastUpdate := lu;
                  BoatData.fishermanName := n; BoatData.contactInfo := ct |}
      | None => None
      end
  end.

#[export] Instance BoatData_countable : Countable BoatData.t.
Proof.
  apply (inj_countable boat_code boat_of_code).
  by intros [a bi [la ln ts] [] sp hd lu n ct].
Defined.

(** The binary digits of a positive number, least significant first. *)
Fixpoint bits (p : positive) : string :=
  match p with
  | xH => "."
  | xO q => String "0"%char (bits q)
  | xI q => String "1"%char (bits q)
  end.

Fixpoint of_bits (s : string) : option positive :=
  match s with
  | EmptyString => None
  | String c rest =>
      if Ascii.eqb c "."%char then
        match rest with
        | EmptyString => Some xH
        | String _ _ => None
        end
      else if Ascii.eqb c "0"%char then xO <$> of_bits rest
      else if Ascii.eqb c "1"%char then xI <$> of_bits rest
      else None
  end.

Definition as_string (v : jsval) : option string :=
  match v with
  | VStr s => Some s
  | _ => None
  end.

Definition as_number (v : jsval) : option float :=
  match v with
  | VNum x => Some x
  | _ => None
  end.

(** [kv.k], read with [f]. *)
Definition field {A} (kv : gmap string jsval) (k : string)
    (f : jsval -> option A) : option A :=
  match kv !! k with
  | Some v => f v
  | None => None
  end.

Definition as_location (v : jsval) : option Location :=
  match v with
  | VObj kv =>
      match field kv "lat" as_number, field kv "lng" as_number,
            field kv "timestamp" as_number with
      | Some la, Some ln, Some ts =>
          Some {| lat := la; lng := ln; timestamp := ts |}
      | _, _, _ => None
      end
  | _ => None
  end.

Definition as_status (v : jsval) : option Status :=
  match v with
  | VStr s => status_of_string s
  | _ => None
  end.

(** The typed record of a runtime object, the inverse of [boat_json]. *)
Definition json_boat (v : jsval) : option BoatData.t :=
  match v with
  | VObj kv =>
      match field kv "aisId" as_string, field kv "boatId" as_string,
            field kv "location" as_location, field kv "status" as_status,
            field kv "speed" as_number, field kv "heading" as_number,
            field kv "lastUpdate" as_number with
      | Some a, Some bi, Some l, Some st, Some sp, Some hd, Some lu =>
          Some {| BoatData.aisId := a; BoatData.boatId := bi;
                  BoatData.location := l; BoatData.status := st;
                  BoatData.speed := sp; BoatData.heading := hd;
                  BoatData.lastUpdate := lu;
                  BoatData.fishermanName := field kv "fishermanName" as_string;
                  BoatData.contactInfo := field kv "contactInfo" as_string |}
      | _, _, _, _, _, _, _ => None
      end
  | _ => None
  end.

Fixpoint json_boats_of (l : list jsval) : option (list BoatData.t) :=
  match l with
  | [] => Some []
  | v :: rest =>
      match json_boat v, json_boats_of rest with
      | Some b, Some boats => Some (b :: boats)
      | _, _ => None
      end
  end.

Definition json_boats (v : jsval) : option (list BoatData.t) :=
  match v with
  | VArr l => json_boats_of l
  | _ => None
  end.

Definition stringify (v : jsval) : string :=
  match json_boats v with
  | Some boats => bits (encode boats)
  | None => "null"
  end.

Definition parse (text : string) : option jsval :=
  match of_bits text with
  | Some p =>
      match decode p with
      | Some boats => Some (VArr (boat_json <$> boats))
      | None => None
      end
  | None => None
  end.

Definition unlimited (key value : string) : bool := true.

End Codec.

(** ** Sessions: role selection, the coast-guard effect and the logouts *)

Module Session.

Import App.

Definition setUserType (v : option UserType) : M unit :=
  write_state (fun a =>
    {| userType := v; isRegistered := isRegistered a; boatData := boatData a;
       allBoats := allBoats a; isTracking := isTracking a;
       coastGuardVessel := coastGuardVessel a;
       isCoastGuardTracking := isCoastGuardTracking a |}).

(** The object literal [cgVessel] (App.tsx, lines 96-104); [suffix] is what
    [Math.random().toString(36).substr(2, 6).toUpperCase()] returns. *)
Definition cgVessel (suffix : string) (t1 t2 : number) : CoastGuardVessel.t :=
  {| CoastGuardVessel.vesselId := "CG-" +:+ suffix;
     CoastGuardVessel.vesselName := "Coast Guard Patrol Vessel";
     CoastGuardVessel.location :=
       {| lat := 0%float; lng := 0%float; timestamp := t1 |};
     CoastGuardVessel.speed := 0%float;
     CoastGuardVessel.heading := 0%float;
     CoastGuardVessel.lastUpdate := t2;
     CoastGuardVessel.isTracking := false |}.

(** The logout button of the fisherman's view (App.tsx, lines 611-617). *)
Definition logoutFisherman : M unit :=
  setUserType None;;
  setIsRegistered false;;
  setBoatData None;;
  setIsTracking false.

(** The logout button of the coast-guard view (App.tsx, lines 491-496). *)
Definition logoutCoastGuard : M unit :=
  setUserType None;;
  setIsRegistered false;;
  setAllBoats [].

Section Platform.

Variable JSON_parse : string -> option jsval.

(** The body of [useEffect(..., [userType])] (App.tsx, lines 93-138) up to
    the first load; the interval and the two listeners it installs call
    [loadVesselsFromStorage] later. *)
Definition coastGuardEffect (suffix : string) (t1 t2 : number) : M unit :=
  a ← read_state;
  match userType a with
  | Some coastguard =>
      setCoastGuardVessel (Some (cgVessel suffix t1 t2));;
      loadVesselsFromStorage JSON_parse
  | _ => mret tt
  end.

(** The button "Continue as Coast Guard" and the effect that follows the
    render. *)
Definition enterCoastGuard (suffix : string) (t1 t2 : number) : M unit :=
  setUserType (Some coastguard);;
  coastGuardEffect suffix t1 t2.

(** [handleStorageChange] (App.tsx, lines 116-121); [key] is [e.key]. *)
Definition handleStorageChange (key : option string) : M unit :=
  match key with
  | Some k =>
      if bool_decide (k = mirror_key) then
        console_log "Storage change detected, reloading vessels...";;
        loadVesselsFromStorage JSON_parse
      else mret tt
  | None => mret tt
  end.

(** [handleCustomStorageChange] (App.tsx, lines 124-127) *)
Definition handleCustomStorageChange : M unit :=
  console_log "Custom storage change detected, reloading vessels...";;
  loadVesselsFromStorage JSON_parse.

End Platform.

End Session.

(** ** The guarded wrappers: [utils/safeAsync.ts] *)

Module SafeAsync.

Import App.

(** [console.warn]; the trace keeps it as a log line. *)
Definition console_warn (label : string) : M unit := emit (ConsoleLog label).

(** [safeSync] (lines 26-47); [onError] is [None] when the argument is
    left out. *)
Definition safeSync {A} (operation : M A) (fallback : A)
    (onError : option (exn -> M unit)) : M A :=
  try_catch operation
    (fun error =>
       console_error "Safe sync operation failed:";;
       match onError with
       | Some callback =>
           try_catch (callback error)
             (fun _ => console_error "Error callback also failed:")
       | None => mret tt
       end;;
       mret fallback).

(** [localStorage.removeItem(key)] *)
Definition removeItem (key : string) : M unit := fun s =>
  {| result := Ok tt;
     final := {| app := app s; localStorage := delete key (localStorage s) |};
     emitted := [] |}.

Section Platform.

Variable JSON_parse : string -> option jsval.
Variable storage_accepts : string -> string -> bool.

(** [safeLocalStorage.getItem] (lines 51-57) *)
Definition safe_getItem (key : string) (fallback : option string)
  : M (option string) :=
  safeSync (getItem key) fallback
    (Some (fun _ => console_warn "Failed to get localStorage item")).

(** [safeLocalStorage.setItem] (lines 59-68) *)
Definition safe_setItem (key value : string) : M bool :=
  safeSync (setItem storage_accepts key value;; mret true) false
    (Some (fun _ => console_warn "Failed to set localStorage item")).

(** [safeLocalStorage.removeItem] (lines 70-79) *)
Definition safe_removeItem (key : string) : M bool :=
  safeSync (removeItem key;; mret true) false
    (Some (fun _ => console_warn "Failed to remove localStorage item")).

(** [safeJSON.parse] (lines 84-90) *)
Definition safe_parse (text : string) (fallback : jsval) : M jsval :=
  safeSync (parse JSON_parse text) fallback
    (Some (fun _ => console_warn "Failed to parse JSON:")).

End Platform.

End SafeAsync.

(** ** Alerts: [addAlert] of [App.tsx] *)

Module Alerts.

Inductive AlertType := alert_warning | alert_danger | alert_info.

Record Alert := {
  id : string;
  type : AlertType;
  message : string;
  timestamp : number;
  zone : option string;
  targetBoat : option string;
  fromCoastGuard : option bool
}.

(** [Omit<Alert, 'id' | 'timestamp'>] *)
Record Draft := {
  draft_type : AlertType;
  draft_message : string;
  draft_zone : option string;
  draft_targetBoat : option string;
  draft_fromCoastGuard : option bool
}.

(** One call of [addAlert]: the draft, the identifier drawn with
    [Math.random] and the reading of the clock. *)
Record Call := { draft : Draft; drawn : string; now : number }.

Definition newAlert (c : Call) : Alert :=
  {| id := drawn c; type := draft_type (draft c);
     message := draft_message (draft c); timestamp := now c;
     zone := draft_zone (draft c); targetBoat := draft_targetBoat (draft c);
     fromCoastGuard := draft_fromCoastGuard (draft c) |}.

(** [addAlert] (App.tsx, lines 286-293): the updater
    [prev => [newAlert, ...prev].slice(0, 50)]. *)
Definition addAlert (c : Call) (prev : list Alert) : list Alert :=
  take 50 (newAlert c :: prev).

(** The alerts after a sequence of calls, the first call first. *)
Definition addAlerts (calls : list Call) (prev : list Alert) : list Alert :=
  foldl (fun alerts c => addAlert c alerts) prev calls.

End Alerts.
(** * Properties *)

(** ** Reading the mirror *)

Section MirrorRead.

Import App.

Variable JSON_parse : string -> option jsval.

Abbreviation shown := (shown JSON_parse).

Lemma get_field_throws (v : jsval) (k : string) :
  nullish v = true -> get_field v k = Throw TypeError.
Proof. destruct v; simpl; congruence. Qed.

Lemma get_field_returns (v : jsval) (k : string) :
  nullish v = false -> exists x, get_field v k = Ok x.
Proof. destruct v; simpl; intros; try congruence; eauto. Qed.

Lemma vessel_details_throws (v : jsval) :
  nullish v = true -> vessel_details v = Throw TypeError.
Proof. intros H. unfold vessel_details. by rewrite get_field_throws. Qed.

Lemma vessel_details_returns (v : jsval) :
  nullish v = false -> exists x, vessel_details v = Ok x.
Proof.
  intros H. unfold vessel_details.
  destruct (get_field_returns v "aisId" H) as [a ->].
  destruct (get_field_returns v "boatId" H) as [b ->].
  destruct (get_field_returns v "fishermanName" H) as [n ->].
  eauto.
Qed.

Lemma map_details_throws (l : list jsval) :
  existsb nullish l = true ->
  map_throwing vessel_details l = Throw TypeError.
Proof.
  induction l as [|v l IH]; simpl; [congruence|].
  destruct (nullish v) eqn:Hv; simpl; intros H.
  - by rewrite vessel_details_throws.
  - destruct (vessel_details_returns v Hv) as [x ->]. by rewrite IH.
Qed.

Lemma map_details_returns (l : list jsval) :
  existsb nullish l = false ->
  exists ys, map_throwing vessel_details l = Ok ys.
Proof.
  induction l as [|v l IH]; simpl; [eauto|].
  destruct (nullish v) eqn:Hv; simpl; intros H; [congruence|].
  destruct (vessel_details_returns v Hv) as [x ->].
  destruct (IH H) as [ys ->]. eauto.
Qed.

Lemma loadVesselsFromStorage_shown (s : Sys) :
  let r := loadVesselsFromStorage JSON_parse s in
  result r = Ok tt /\
  allBoats (app (final r)) = shown (localStorage s !! mirror_key) /\
  localStorage (final r) = localStorage s.
Proof.
  unfold loadVesselsFromStorage, App.shown, mbind, M_bind, getItem. simpl.
  destruct (localStorage s !! mirror_key) as [text|]; [|done].
  destruct (truthy text); [|done].
  unfold try_catch, parse. cbn.
  destruct (JSON_parse text) as [v|]; [|done]. cbn.
  destruct v; try done. cbn.
  destruct (existsb nullish l) eqn:Hl.
  - rewrite (map_details_throws l Hl). done.
  - destruct (map_details_returns l Hl) as [ys ->]. done.
Qed.

(** C2. Reloading the vessel list from the mirror never raises, whatever the
    mirror key holds: with the key missing the list becomes empty; with a
    content that [JSON.parse] rejects the failure is logged with
    [console.error] and the list becomes empty. (An empty string is falsy and
    is treated as a missing key.) *)
Theorem loadVesselsFromStorage_never_throws (s : Sys) :
  let r := loadVesselsFromStorage JSON_parse s in
  result r = Ok tt /\
  match localStorage s !! mirror_key with
  | None => allBoats (app (final r)) = []
  | Some text =>
      match JSON_parse text with
      | None =>
          allBoats (app (final r)) = [] /\
          emitted r =
            (if truthy text
             then [ConsoleError "Error loading stored vessels:"]
             else [ConsoleLog "No vessels found in storage"])
      | Some _ => True
      end
  end.
Proof.
  split; [apply loadVesselsFromStorage_shown|].
  unfold loadVesselsFromStorage, mbind, M_bind, getItem. simpl.
  destruct (localStorage s !! mirror_key) as [text|]; [|done].
  destruct (JSON_parse text) as [v|] eqn:Hv; [done|].
  destruct (truthy text); [|done].
  unfold try_catch, parse. rewrite Hv. done.
Qed.

End MirrorRead.

(** A mirror key that holds text which is not JSON. *)
Example reload_of_garbage :
  let s := {| App.app := App.initial_state;
              App.localStorage := {[ App.mirror_key := "not json" ]} |} in
  let r := App.loadVesselsFromStorage Codec.parse s in
  App.result r = Ok tt /\
  App.allBoats (App.app (App.final r)) = [] /\
  App.emitted r = [App.ConsoleError "Error loading stored vessels:"].
Proof. vm_compute. repeat split. Qed.

(** ** Writing the mirror *)

Section MirrorWrite.

Import App.

Variable JSON_parse : string -> option jsval.
Variable JSON_stringify : jsval -> string.
Variable storage_accepts : string -> string -> bool.

Abbreviation handleFishermanRegistration :=
  (handleFishermanRegistration JSON_parse JSON_stringify storage_accepts).
Abbreviation updateLocation := (updateLocation JSON_stringify storage_accepts).
Abbreviation updateBoatStatus := (updateBoatStatus JSON_stringify storage_accepts).
Abbreviation updateBoatStatusByCoastGuard :=
  (updateBoatStatusByCoastGuard JSON_stringify storage_accepts).
Abbreviation write_back := (write_back JSON_stringify storage_accepts).

(** Unfold the monad and split on what the handlers branch on. *)
Ltac run_handler :=
  unfold mbind, M_bind, after, try_catch, lift, throw, mret, M_ret, setItem,
    parse, getItem, read_state, write_state, setBoatData, setAllBoats,
    setIsRegistered, setIsTracking, setCoastGuardVessel,
    setIsCoastGuardTracking, console_log, console_error, dispatchEvent, emit;
  repeat (cbn;
    match goal with
    | |- context [boatData (app ?s)] =>
        is_var s; destruct (boatData (app s)) as [?b|] eqn:?
    | |- context [coastGuardVessel (app ?s)] =>
        is_var s; destruct (coastGuardVessel (app s)) as [?v|] eqn:?
    | |- context [?m !! mirror_key] =>
        destruct (m !! mirror_key) as [?text|] eqn:?
    | |- context [truthy ?t] => destruct (truthy t) eqn:?
    | |- context [JSON_parse ?t] =>
        destruct (JSON_parse t) as [[]|] eqn:?
    | |- context [findIndex_aisId ?a ?l] =>
        destruct (findIndex_aisId a l) as [[]|] eqn:?
    | |- context [map_throwing ?f ?l] =>
        destruct (map_throwing f l) eqn:?
    | |- context [storage_accepts ?k ?v] =>
        destruct (storage_accepts k v) eqn:?
    | |- context [bool_decide (BoatData.aisId ?b = ?a)] =>
        destruct (bool_decide (BoatData.aisId b = a)) eqn:?
    end);
  cbn.

(** The updater of the three update handlers writes and broadcasts, or does
    neither. *)
Lemma write_back_trace (f : jsval -> outcome jsval) (s : Sys) :
  emitted (write_back f s) = [] \/
  exists text,
    emitted (write_back f s) =
      [SetItem mirror_key text; DispatchEvent broadcast].
Proof. unfold App.write_back. run_handler; eauto. Qed.

(** C4. On each of the four write paths (registration, location update,
    status update by the fisherman, status update by the coast guard), every
    successful write of the vessel list to the mirror key is directly followed
    by the dispatch of the [vesselsUpdated] event. *)
Theorem every_write_is_broadcast (s : Sys) :
  (forall aisId boatId fishermanName contactInfo t1 t2,
     broadcast_follows_writes
       (emitted (handleFishermanRegistration aisId boatId fishermanName
                   contactInfo t1 t2 s)) = true) /\
  (forall lat lng t1 t2,
     broadcast_follows_writes (emitted (updateLocation lat lng t1 t2 s))
     = true) /\
  (forall status,
     broadcast_follows_writes (emitted (updateBoatStatus status s)) = true) /\
  (forall aisId status,
     broadcast_follows_writes
       (emitted (updateBoatStatusByCoastGuard aisId status s)) = true).
Proof.
  repeat split; intros.
  - unfold App.handleFishermanRegistration, stored_or_empty.
    run_handler; reflexivity.
  - unfold App.updateLocation, App.write_back. run_handler; reflexivity.
  - unfold App.updateBoatStatus, App.write_back. run_handler; reflexivity.
  - unfold App.updateBoatStatusByCoastGuard, App.write_back.
    run_handler; reflexivity.
Qed.

(** The write paths do write: a handler that returns has written the mirror
    key exactly once (the update handlers only with a registered boat). *)
Lemma registration_writes_once aisId boatId fishermanName contactInfo t1 t2 s :
  let r := handleFishermanRegistration aisId boatId fishermanName contactInfo
             t1 t2 s in
  result r = Ok tt -> length (filter is_write (emitted r)) = 1.
Proof.
  unfold App.handleFishermanRegistration, stored_or_empty.
  run_handler; intros; simplify_eq; done.
Qed.

Lemma updateLocation_writes_once lat lng t1 t2 s :
  let r := updateLocation lat lng t1 t2 s in
  is_Some (boatData (app s)) -> result r = Ok tt ->
  length (filter is_write (emitted r)) = 1.
Proof.
  unfold App.updateLocation, App.write_back.
  run_handler; intros [? ?] ?; simplify_eq; done.
Qed.

(** *** Registration *)

Lemma findIndex_from_returns (i : nat) (id : string) (l : list jsval) :
  existsb nullish l = false -> exists r, findIndex_from i id l = Ok r.
Proof.
  revert i. induction l as [|v l IH]; intros i; simpl; [eauto|].
  destruct (nullish v) eqn:Hv; simpl; [congruence|]. intros Hl.
  destruct (get_field_returns v "aisId" Hv) as [x ->].
  destruct (strict_eq_string x id); eauto.
Qed.

Lemma findIndex_from_bound (i0 : nat) (id : string) (l : list jsval) (i : nat) :
  findIndex_from i0 id l = Ok (Some i) -> i0 <= i < i0 + length l.
Proof.
  revert i0. induction l as [|v l IH]; intros i0; simpl; [congruence|].
  destruct (get_field v "aisId") as [x|]; [|congruence].
  destruct (strict_eq_string x id).
  - intros [= ->]. lia.
  - intros H. apply IH in H. lia.
Qed.

Lemma put_at_elem (id : string) (l : list jsval) (r : option nat) (x : jsval) :
  findIndex_aisId id l = Ok r -> x ∈ put_at r x l.
Proof.
  destruct r as [i|]; simpl; intros H.
  - apply findIndex_from_bound in H. apply list_elem_of_lookup. exists i.
    apply list_lookup_insert_eq. lia.
  - apply elem_of_app. right. by apply list_elem_of_singleton.
Qed.

Lemma put_at_no_nullish (l : list jsval) (r : option nat) (x : jsval) :
  nullish x = false -> existsb nullish l = false ->
  existsb nullish (put_at r x l) = false.
Proof.
  intros Hx. destruct r as [i|]; simpl.
  - revert i. induction l as [|v l IH]; intros [|i]; simpl; try done.
    + rewrite Hx. rewrite !orb_false_iff. tauto.
    + rewrite !orb_false_iff. intros [? ?]. split; [done|]. by apply IH.
  - rewrite existsb_app. simpl. rewrite Hx. rewrite !orb_false_iff. tauto.
Qed.

(** What the registration reads back from a well-formed mirror. *)
Lemma stored_or_empty_run (s : Sys) :
  mirror_well_formed JSON_parse (localStorage s !! mirror_key) = true ->
  exists es,
    stored_or_empty JSON_parse s =
      {| result := Ok (VArr (shown JSON_parse (localStorage s !! mirror_key)));
         final := s; emitted := es |} /\
    filter is_write es = [].
Proof.
  unfold mirror_well_formed, stored_or_empty, shown.
  run_handler; intros; simplify_eq; eauto.
  all: try (destruct (existsb nullish l); simplify_eq; eauto).
Qed.

Lemma shown_no_nullish (content : option string) :
  existsb nullish (shown JSON_parse content) = false.
Proof.
  unfold shown. repeat case_match; try done.
Qed.

(** The registration on a well-formed mirror: it returns, and the mirror then
    holds the list read back with the new record put in. *)
Lemma registration_run aisId boatId fishermanName contactInfo t1 t2 (s : Sys) :
  mirror_well_formed JSON_parse (localStorage s !! mirror_key) = true ->
  existsb nullish (allBoats (app s)) = false ->
  (forall text, storage_accepts mirror_key text = true) ->
  let b := newBoat aisId boatId fishermanName contactInfo t1 t2 in
  let stored := shown JSON_parse (localStorage s !! mirror_key) in
  let r := handleFishermanRegistration aisId boatId fishermanName contactInfo
             t1 t2 s in
  exists i j,
    findIndex_aisId aisId stored = Ok i /\
    findIndex_aisId aisId (allBoats (app s)) = Ok j /\
    result r = Ok tt /\
    boatData (app (final r)) = Some b /\
    allBoats (app (final r)) = put_at j (boat_json b) (allBoats (app s)) /\
    localStorage (final r) =
      <[mirror_key := JSON_stringify (VArr (put_at i (boat_json b) stored))]>
        (localStorage s).
Proof.
  intros Hwf Hmem Hquota b stored r.
  destruct (findIndex_from_returns 0 aisId stored) as [i Hi];
    [apply shown_no_nullish|].
  destruct (findIndex_from_returns 0 aisId (allBoats (app s)) Hmem) as [j Hj].
  exists i, j. split; [done|]. split; [done|].
  subst r. unfold App.handleFishermanRegistration.
  unfold mbind, M_bind, setBoatData, setIsRegistered, setIsTracking,
    write_state. cbn.
  match goal with |- context [stored_or_empty _ ?s'] =>
    destruct (stored_or_empty_run s' Hwf) as (es & -> & _) end.
  cbn. unfold findIndex_aisId in *. fold stored. rewrite Hi. cbn.
  unfold setItem. rewrite Hquota. cbn. rewrite Hj. cbn. done.
Qed.

(** C10. A registration creates, and persists to the mirror, a record with
    the position latitude 0, longitude 0 stamped with the current time,
    status [safe], speed 0 and heading 0. *)
Theorem registration_record aisId boatId fishermanName contactInfo t1 t2
    (s : Sys) :
  mirror_well_formed JSON_parse (localStorage s !! mirror_key) = true ->
  existsb nullish (allBoats (app s)) = false ->
  (forall text, storage_accepts mirror_key text = true) ->
  let r := handleFishermanRegistration aisId boatId fishermanName contactInfo
             t1 t2 s in
  let b := newBoat aisId boatId fishermanName contactInfo t1 t2 in
  result r = Ok tt /\
  boatData (app (final r)) = Some b /\
  (exists vessels,
     localStorage (final r) !! mirror_key
     = Some (JSON_stringify (VArr vessels)) /\
     boat_json b ∈ vessels) /\
  BoatData.location b
  = {| lat := 0%float; lng := 0%float; timestamp := t1 |} /\
  BoatData.status b = safe /\
  BoatData.speed b = 0%float /\
  BoatData.heading b = 0%float /\
  get_field (boat_json b) "location"
  = Ok (VObj (list_to_map
          [("lat", VNum 0%float); ("lng", VNum 0%float);
           ("timestamp", VNum t1)])).
Proof.
  intros Hwf Hmem Hquota r b.
  destruct (registration_run aisId boatId fishermanName contactInfo t1 t2 s
              Hwf Hmem Hquota) as (i & j & Hi & Hj & Hr & Hb & Ha & Hs).
  subst r. split; [exact Hr|]. split; [exact Hb|]. split.
  - eexists. split; [rewrite Hs; apply lookup_insert_eq|].
    by eapply put_at_elem.
  - done.
Qed.

(** *** The coast-guard record *)

(** C9. Neither a location update nor a tracking toggle of the coast-guard
    record touches the mirror: [localStorage] is unchanged and no write is
    emitted. *)
Theorem coast_guard_record_never_persisted (s : Sys) :
  (forall lat lng speed heading t1 t2,
     let r := updateCoastGuardLocation lat lng speed heading t1 t2 s in
     result r = Ok tt /\
     localStorage (final r) = localStorage s /\
     filter is_write (emitted r) = []) /\
  (forall enabled,
     let r := toggleCoastGuardTracking enabled s in
     result r = Ok tt /\
     localStorage (final r) = localStorage s /\
     filter is_write (emitted r) = []).
Proof.
  split; intros.
  - subst r. unfold updateCoastGuardLocation. run_handler; done.
  - subst r. unfold toggleCoastGuardTracking. run_handler; done.
Qed.

(** The updates do change the coast-guard record itself. *)
Lemma updateCoastGuardLocation_record lat lng speed heading t1 t2 s v :
  coastGuardVessel (app s) = Some v ->
  coastGuardVessel
    (app (final (updateCoastGuardLocation lat lng speed heading t1 t2 s)))
  = Some (CoastGuardVessel.with_fix v
            {| App.lat := lat; App.lng := lng; timestamp := t1 |}
            (default (CoastGuardVessel.speed v) speed)
            (default (CoastGuardVessel.heading v) heading) t2).
Proof.
  intros Hv. unfold updateCoastGuardLocation, mbind, M_bind, read_state.
  cbn. rewrite Hv. done.
Qed.

(** *** Status updates *)

Lemma boat_json_aisId (b : BoatData.t) :
  get_field (boat_json b) "aisId" = Ok (VStr (BoatData.aisId b)).
Proof. destruct b as [a bi l st sp hd lu [n|] [c|]]; reflexivity. Qed.

Lemma boat_json_lastUpdate (b : BoatData.t) :
  get_field (boat_json b) "lastUpdate" = Ok (VNum (BoatData.lastUpdate b)).
Proof. destruct b as [a bi l st sp hd lu [n|] [c|]]; reflexivity. Qed.

Lemma boat_json_not_nullish (b : BoatData.t) : nullish (boat_json b) = false.
Proof. reflexivity. Qed.

(** [{ ...boat, status }] of a record's object is the object of the record
    with that status: no other field changes. *)
Lemma restatus_matching_boat (b : BoatData.t) (status : Status) :
  restatus_matching (BoatData.aisId b) status (boat_json b)
  = Ok (boat_json (BoatData.with_status b status)).
Proof.
  unfold restatus_matching. rewrite boat_json_aisId. cbn.
  rewrite bool_decide_true by done. f_equal.
  destruct b as [a bi l s0 sp hd lu [n|] [c|]]; vm_compute; reflexivity.
Qed.

(** The fisherman's status update replaces the status and nothing else. *)
Lemma updateBoatStatus_record (status : Status) (s : Sys) (b : BoatData.t) :
  boatData (app s) = Some b ->
  boatData (app (final (updateBoatStatus status s)))
  = Some (BoatData.with_status b status).
Proof.
  intros Hb. unfold App.updateBoatStatus, App.write_back.
  unfold mbind, M_bind, read_state. cbn. rewrite Hb.
  run_handler; done.
Qed.

(** C7, on the code. A status update leaves the last-update timestamp as it
    was: after the fisherman's [updateBoatStatus] and after the coast guard's
    [updateBoatStatusByCoastGuard] on the boat of [example_session], whose
    [lastUpdate] is 1000, the record has the new status and [lastUpdate] is
    still 1000. Neither handler reads the clock. *)
Theorem status_update_keeps_lastUpdate (status : Status) :
  let fisher := updateBoatStatus status example_session in
  let guard :=
    App.updateBoatStatusByCoastGuard JSON_stringify (fun _ _ => true)
      (BoatData.aisId example_boat) status example_session in
  boatData (app (final fisher))
    = Some (BoatData.with_status example_boat status) /\
  BoatData.lastUpdate (BoatData.with_status example_boat status)
    = 1000%float /\
  result guard = Ok tt /\
  allBoats (app (final guard))
    = [boat_json (BoatData.with_status example_boat status)] /\
  get_field (boat_json (BoatData.with_status example_boat status))
    "lastUpdate" = Ok (VNum 1000%float).
Proof.
  split; [by apply updateBoatStatus_record|].
  split; [reflexivity|].
  assert (Hm : map_throwing (restatus_matching "123456789" status)
                 (allBoats (app example_session))
               = Ok [boat_json (BoatData.with_status example_boat status)]).
  { change (allBoats (app example_session)) with [boat_json example_boat].
    cbn [map_throwing].
    by rewrite (restatus_matching_boat example_boat status
                : restatus_matching "123456789" status _ = _). }
  unfold App.updateBoatStatusByCoastGuard, App.write_back.
  unfold mbind, M_bind, read_state, lift. cbn -[example_session map_throwing].
  rewrite Hm. cbn -[example_session boat_json].
  split; [done|]. split; [done|]. apply boat_json_lastUpdate.
Qed.

End MirrorWrite.

(** ** Upserts: last write wins *)

Section UpsertLists.

Import App.

Implicit Types (b x : BoatData.t) (boats : list BoatData.t).

Lemma upsert_ids b boats :
  NoDup (BoatData.aisId <$> boats) ->
  NoDup (BoatData.aisId <$> upsert b boats) /\
  forall id, id ∈ (BoatData.aisId <$> upsert b boats) <->
             id = BoatData.aisId b \/ id ∈ (BoatData.aisId <$> boats).
Proof.
  induction boats as [|x boats IH]; simpl.
  - intros _. split; [apply NoDup_singleton|]. intros id.
    rewrite list_elem_of_singleton. rewrite elem_of_nil. tauto.
  - rewrite NoDup_cons. intros [Hx Hnd].
    destruct (IH Hnd) as [IH1 IH2]. case_bool_decide as Hid; simpl.
    + split.
      * apply NoDup_cons. by rewrite <- Hid.
      * intros id. rewrite !elem_of_cons, Hid. tauto.
    + split.
      * apply NoDup_cons. split; [|done]. rewrite IH2. intros [?|?]; done.
      * intros id. rewrite !elem_of_cons, IH2. tauto.
Qed.

Lemma elem_of_upsert b boats x :
  NoDup (BoatData.aisId <$> boats) ->
  x ∈ upsert b boats <->
  x = b \/ (x ∈ boats /\ BoatData.aisId x <> BoatData.aisId b).
Proof.
  induction boats as [|y boats IH]; simpl.
  - intros _. rewrite list_elem_of_singleton, elem_of_nil. tauto.
  - rewrite NoDup_cons. intros [Hy Hnd]. case_bool_decide as Hid.
    + rewrite !elem_of_cons. split.
      * intros [->|Hx]; [by left|]. right. split; [by right|].
        intros Heq. apply Hy. rewrite Hid, <- Heq.
        by apply list_elem_of_fmap_2.
      * intros [->|[[->|Hx] Hne]]; [by left|done|by right].
    + rewrite !elem_of_cons, (IH Hnd). split.
      * intros [->|[->|[Hx Hne]]]; [|by left|]; right; split; auto.
      * intros [->|[[->|Hx] Hne]]; [right; by left|by left|].
        right. right. done.
Qed.

(** A colliding identifier is replaced at the index it already has. *)
Lemma upsert_in_place b boats (i : nat) :
  NoDup (BoatData.aisId <$> boats) ->
  (BoatData.aisId <$> boats) !! i = Some (BoatData.aisId b) ->
  upsert b boats = <[i := b]> boats.
Proof.
  revert i. induction boats as [|y boats IH]; intros i; simpl; [done|].
  rewrite NoDup_cons. intros [Hy Hnd] Hi. case_bool_decide as Hid.
  - destruct i as [|i]; [done|]. simpl in Hi. exfalso. apply Hy.
    rewrite Hid. by eapply list_elem_of_lookup_2.
  - destruct i as [|i]; simpl in Hi; [congruence|]. simpl. f_equal. by apply IH.
Qed.

(** An identifier that is not yet there is appended. *)
Lemma upsert_fresh b boats :
  BoatData.aisId b ∉ (BoatData.aisId <$> boats) ->
  upsert b boats = boats ++ [b].
Proof.
  induction boats as [|y boats IH]; simpl; [done|].
  rewrite not_elem_of_cons. intros [Hne Hnin]. case_bool_decide; [done|].
  f_equal. by apply IH.
Qed.

Lemma upsert_all_snoc (calls : list Registration) (c : Registration) :
  upsert_all (calls ++ [c]) = upsert (registered c) (upsert_all calls).
Proof. unfold upsert_all. by rewrite foldl_app. Qed.

Lemma upsert_all_NoDup (calls : list Registration) :
  NoDup (BoatData.aisId <$> upsert_all calls).
Proof.
  induction calls as [|c calls IH] using rev_ind; [apply NoDup_nil_2|].
  rewrite upsert_all_snoc. by apply upsert_ids.
Qed.

Lemma elem_of_upsert_all (calls : list Registration) b :
  b ∈ upsert_all calls <-> last_write b calls.
Proof.
  revert b. induction calls as [|c calls IH] using rev_ind; intros b.
  - split; [by intros ?%elem_of_nil|].
    intros (earlier & c & later & H & _). by destruct earlier.
  - rewrite upsert_all_snoc, elem_of_upsert by apply upsert_all_NoDup.
    rewrite IH. split.
    + intros [->|[(earlier & c' & later & -> & -> & Hl) Hne]].
      * exists calls, c, []. split; [done|]. split; [done|]. constructor.
      * exists earlier, c', (later ++ [c]). split; [by rewrite <- app_assoc|].
        split; [done|]. apply Forall_app. split; [done|].
        constructor; [|constructor]. intros Heq. apply Hne. simpl. congruence.
    + intros (earlier & c' & later & Heq & -> & Hl).
      destruct later as [|l0 later _] using rev_ind.
      * apply app_inj_tail in Heq as [_ ->]. by left.
      * rewrite app_comm_cons, app_assoc in Heq.
        apply app_inj_tail in Heq as [-> ->].
        apply Forall_app in Hl as [Hl Hc]. right. split.
        -- by exists earlier, c', later.
        -- apply Forall_inv in Hc. simpl. congruence.
Qed.

End UpsertLists.

Section MirrorUpsert.

Import App.

Variable JSON_parse : string -> option jsval.
Variable JSON_stringify : jsval -> string.
Variable storage_accepts : string -> string -> bool.

(** What the proof needs from the browser: [JSON.parse] reads back the vessel
    arrays that [JSON.stringify] prints, the empty string is not JSON, and the
    storage quota is not exceeded. *)
Hypothesis parse_stringify :
  forall boats : list BoatData.t,
    forallb json_exact boats = true ->
    JSON_parse (JSON_stringify (VArr (boat_json <$> boats)))
    = Some (VArr (boat_json <$> boats)).
Hypothesis parse_empty : JSON_parse "" = None.
Hypothesis within_quota :
  forall text, storage_accepts mirror_key text = true.

Abbreviation register := (register JSON_parse JSON_stringify storage_accepts).
Abbreviation register_all :=
  (register_all JSON_parse JSON_stringify storage_accepts).
Abbreviation readAll_after :=
  (readAll_after JSON_parse JSON_stringify storage_accepts).
Abbreviation mirror_holds := (mirror_holds JSON_stringify).

Lemma findIndex_from_succ (i : nat) (id : string) (l : list jsval) :
  findIndex_from (S i) id l =
  match findIndex_from i id l with
  | Ok (Some j) => Ok (Some (S j))
  | other => other
  end.
Proof.
  revert i. induction l as [|v l IH]; intros i; simpl; [done|].
  destruct (get_field v "aisId") as [x|]; [|done].
  destruct (strict_eq_string x id); [done|]. apply IH.
Qed.

(** On the objects of typed records, [findIndex] followed by the replacement
    or the [push] is the upsert. *)
Lemma put_at_upsert (b : BoatData.t) (boats : list BoatData.t) :
  exists r,
    findIndex_aisId (BoatData.aisId b) (boat_json <$> boats) = Ok r /\
    put_at r (boat_json b) (boat_json <$> boats)
    = boat_json <$> upsert b boats.
Proof.
  unfold findIndex_aisId. induction boats as [|x boats (r & Hr & Hput)].
  - by exists None.
  - cbn [fmap list_fmap findIndex_from upsert]. rewrite boat_json_aisId.
    cbn [strict_eq_string].
    destruct (bool_decide (BoatData.aisId x = BoatData.aisId b)).
    + by exists (Some 0).
    + rewrite findIndex_from_succ. fold (fmap boat_json boats). rewrite Hr.
      destruct r as [j|].
      * exists (Some (S j)). split; [done|]. rewrite fmap_cons, <- Hput.
        reflexivity.
      * exists None. split; [done|]. rewrite fmap_cons, <- Hput.
        reflexivity.
Qed.

Lemma existsb_nullish_boats (boats : list BoatData.t) :
  existsb nullish (boat_json <$> boats) = false.
Proof. induction boats as [|b boats IH]; simpl; [done|]. exact IH. Qed.

Lemma mirror_holds_shown content boats :
  mirror_holds content boats -> forallb json_exact boats = true ->
  shown JSON_parse content = boat_json <$> boats /\
  mirror_well_formed JSON_parse content = true.
Proof.
  intros [[-> ->]| ->] Hexact; [done|].
  pose proof (parse_stringify boats Hexact) as Hp. simpl.
  destruct (JSON_stringify (VArr (boat_json <$> boats))) as [|c text] eqn:Ht.
  { rewrite parse_empty in Hp. done. }
  cbn [truthy]. rewrite Hp. by rewrite existsb_nullish_boats.
Qed.

Lemma registered_exact (c : Registration) :
  json_number (reg_t1 c) && json_number (reg_t2 c) = true ->
  json_exact (registered c) = true.
Proof.
  intros [H1 H2]%andb_prop. unfold json_exact. cbn.
  rewrite H1, H2. reflexivity.
Qed.

Lemma upsert_exact (b : BoatData.t) (boats : list BoatData.t) :
  json_exact b = true -> forallb json_exact boats = true ->
  forallb json_exact (upsert b boats) = true.
Proof.
  intros Hb. induction boats as [|x boats IH]; simpl.
  - by rewrite Hb.
  - intros [Hx Hl]%andb_prop. case_bool_decide; simpl.
    + by rewrite Hb, Hl.
    + by rewrite Hx, IH.
Qed.

(** One registration is one upsert on the mirror. *)
Lemma register_upsert (c : Registration) (s : Sys) (boats : list BoatData.t) :
  mirror_holds (localStorage s !! mirror_key) boats ->
  forallb json_exact boats = true ->
  existsb nullish (allBoats (app s)) = false ->
  let r := register c s in
  result r = Ok tt /\
  mirror_holds (localStorage (final r) !! mirror_key)
    (upsert (registered c) boats) /\
  existsb nullish (allBoats (app (final r))) = false.
Proof.
  intros Hm Hexact Hmem r.
  destruct (mirror_holds_shown _ _ Hm Hexact) as [Hshown Hwf].
  destruct (registration_run JSON_parse JSON_stringify storage_accepts
              (reg_aisId c) (reg_boatId c) (reg_fishermanName c)
              (reg_contactInfo c) (reg_t1 c) (reg_t2 c) s Hwf Hmem
              within_quota) as (i & j & Hi & Hj & Hr & _ & Ha & Hs).
  fold (registered c) in *. fold (register c s) in *. fold r in Hr, Ha, Hs.
  rewrite Hshown in Hi, Hs.
  destruct (put_at_upsert (registered c) boats) as (i' & Hi' & Hput).
  change (BoatData.aisId (registered c)) with (reg_aisId c) in Hi'.
  assert (i' = i) as -> by congruence.
  split; [done|]. split.
  - right. rewrite Hs, lookup_insert_eq. by rewrite Hput.
  - rewrite Ha. by apply put_at_no_nullish.
Qed.

Lemma bind_returns {A B} (m : M A) (k : A -> M B) (s : Sys) (a : A) :
  result (m s) = Ok a ->
  result ((m ≫= k) s) = result (k a (final (m s))) /\
  final ((m ≫= k) s) = final (k a (final (m s))).
Proof.
  unfold mbind, M_bind. destruct (m s) as [[a'|e] s' es]; simpl; [|done].
  intros [= ->]. by destruct (k a s').
Qed.

Lemma register_all_upserts (calls : list Registration) (s : Sys)
    (boats : list BoatData.t) :
  mirror_holds (localStorage s !! mirror_key) boats ->
  forallb json_exact boats = true ->
  existsb nullish (allBoats (app s)) = false ->
  forallb (fun c => json_number (reg_t1 c) && json_number (reg_t2 c)) calls
  = true ->
  let r := register_all calls s in
  result r = Ok tt /\
  mirror_holds (localStorage (final r) !! mirror_key)
    (foldl (fun boats c => upsert (registered c) boats) boats calls) /\
  forallb json_exact
    (foldl (fun boats c => upsert (registered c) boats) boats calls) = true.
Proof.
  revert s boats. induction calls as [|c calls IH]; intros s boats; simpl.
  - intros. done.
  - intros Hm Hexact Hmem [Hc Hcalls]%andb_prop.
    destruct (register_upsert c s boats Hm Hexact Hmem) as (Hr & Hm' & Hmem').
    destruct (bind_returns (register c) (fun _ => register_all calls) s tt Hr)
      as [-> ->].
    apply IH; try done. apply upsert_exact; [|done]. by apply registered_exact.
Qed.

(** C1. After any sequence of registrations on a fresh mirror, a reload shows
    exactly one record per registered vessel identifier, and that record is
    the one built by the last registration of the identifier; a registration
    whose identifier is already in the mirror replaces the record at its index
    and one whose identifier is new is appended. *)
Theorem upserts_last_write_wins (calls : list Registration) (s : Sys) :
  localStorage s !! mirror_key = None ->
  existsb nullish (allBoats (app s)) = false ->
  forallb (fun c => json_number (reg_t1 c) && json_number (reg_t2 c)) calls
  = true ->
  let r := readAll_after calls s in
  result r = Ok tt /\
  exists boats : list BoatData.t,
    allBoats (app (final r)) = boat_json <$> boats /\
    NoDup (BoatData.aisId <$> boats) /\
    (forall b, b ∈ boats <-> last_write b calls) /\
    boats = upsert_all calls /\
    (forall c i,
       (BoatData.aisId <$> boats) !! i = Some (reg_aisId c) ->
       upsert_all (calls ++ [c]) = <[i := registered c]> boats) /\
    (forall c,
       reg_aisId c ∉ (BoatData.aisId <$> boats) ->
       upsert_all (calls ++ [c]) = boats ++ [registered c]).
Proof.
  intros Hfresh Hmem Hcalls r.
  destruct (register_all_upserts calls s [] (or_introl (conj Hfresh eq_refl))
              eq_refl Hmem Hcalls) as (Hr & Hm & Hexact).
  fold (upsert_all calls) in Hm, Hexact.
  destruct (bind_returns (register_all calls)
              (fun _ => loadVesselsFromStorage JSON_parse) s tt Hr)
    as [Hres Hfin].
  destruct (loadVesselsFromStorage_shown JSON_parse
              (final (register_all calls s))) as (Hl1 & Hl2 & _).
  destruct (mirror_holds_shown _ _ Hm Hexact) as [Hshown _].
  subst r. unfold App.readAll_after. rewrite Hres, Hfin.
  split; [exact Hl1|]. exists (upsert_all calls).
  split; [by rewrite Hl2, Hshown|].
  split; [apply upsert_all_NoDup|].
  split; [intros b; apply elem_of_upsert_all|].
  split; [done|]. split.
  - intros c i Hi. rewrite upsert_all_snoc.
    apply upsert_in_place; [apply upsert_all_NoDup|done].
  - intros c Hc. rewrite upsert_all_snoc. by apply upsert_fresh.
Qed.

End MirrorUpsert.

(** ** The assumptions about the browser can be met *)

Section CodecFacts.

Import App.

Lemma of_bits_bits (p : positive) : Codec.of_bits (Codec.bits p) = Some p.
Proof. induction p as [p IH|p IH|]; simpl; rewrite ?IH; done. Qed.

Lemma json_boat_boat_json (b : BoatData.t) :
  Codec.json_boat (boat_json b) = Some b.
Proof.
  destruct b as [a bi [la ln ts] [] sp hd lu [n|] [c|]]; reflexivity.
Qed.

Lemma json_boats_boat_json (boats : list BoatData.t) :
  Codec.json_boats (VArr (boat_json <$> boats)) = Some boats.
Proof.
  simpl. induction boats as [|b boats IH]; [done|].
  rewrite fmap_cons. cbn [Codec.json_boats_of].
  by rewrite json_boat_boat_json, IH.
Qed.

Lemma codec_parse_stringify (boats : list BoatData.t) :
  Codec.parse (Codec.stringify (VArr (boat_json <$> boats)))
  = Some (VArr (boat_json <$> boats)).
Proof.
  unfold Codec.parse, Codec.stringify.
  by rewrite json_boats_boat_json, of_bits_bits, decode_encode.
Qed.

Lemma codec_parse_empty : Codec.parse "" = None.
Proof. reflexivity. Qed.

End CodecFacts.

(** The three registrations of [example_calls] on a fresh profile. *)
Lemma upserts_last_write_wins_example :
  let r :=
    App.readAll_after Codec.parse Codec.stringify Codec.unlimited
      App.example_calls App.fresh in
  App.result r = Ok tt /\
  exists boats : list App.BoatData.t,
    App.allBoats (App.app (App.final r)) = App.boat_json <$> boats /\
    NoDup (App.BoatData.aisId <$> boats) /\
    (forall b, b ∈ boats <-> App.last_write b App.example_calls) /\
    boats = App.upsert_all App.example_calls /\
    (forall c i,
       (App.BoatData.aisId <$> boats) !! i = Some (App.reg_aisId c) ->
       App.upsert_all (App.example_calls ++ [c])
       = <[i := App.registered c]> boats) /\
    (forall c,
       App.reg_aisId c ∉ (App.BoatData.aisId <$> boats) ->
       App.upsert_all (App.example_calls ++ [c])
       = boats ++ [App.registered c]).
Proof.
  apply (upserts_last_write_wins Codec.parse Codec.stringify Codec.unlimited
           (fun boats _ => codec_parse_stringify boats) codec_parse_empty
           (fun _ => eq_refl) App.example_calls App.fresh).
  - reflexivity.
  - reflexivity.
  - vm_compute. reflexivity.
Defined.

(** Run on the codec, the three registrations leave two records: the first
    vessel with the data of its second registration, at its first place. *)
Example three_registrations :
  App.allBoats
    (App.app (App.final
       (App.readAll_after Codec.parse Codec.stringify Codec.unlimited
          App.example_calls App.fresh)))
  = App.boat_json <$>
      [App.newBoat "AIS-1" "VESSEL-003" "Captain Smith" "+1-555-0103"
         3000%float 3000%float;
       App.newBoat "AIS-2" "VESSEL-002" "Captain Jones" "+1-555-0102"
         2000%float 2001%float].
Proof. vm_compute. reflexivity. Qed.

(** A registration on a fresh profile. *)
Lemma registration_record_example :
  let r :=
    App.handleFishermanRegistration Codec.parse Codec.stringify
      Codec.unlimited "AIS-1" "VESSEL-001" "Captain Smith" "+1-555-0101"
      1000%float 1000%float App.fresh in
  let b :=
    App.newBoat "AIS-1" "VESSEL-001" "Captain Smith" "+1-555-0101"
      1000%float 1000%float in
  App.result r = Ok tt /\
  App.boatData (App.app (App.final r)) = Some b /\
  (exists vessels,
     App.localStorage (App.final r) !! App.mirror_key
     = Some (Codec.stringify (VArr vessels)) /\
     App.boat_json b ∈ vessels) /\
  App.BoatData.location b
  = {| App.lat := 0%float; App.lng := 0%float;
       App.timestamp := 1000%float |} /\
  App.BoatData.status b = App.safe /\
  App.BoatData.speed b = 0%float /\
  App.BoatData.heading b = 0%float /\
  get_field (App.boat_json b) "location"
  = Ok (VObj (list_to_map
          [("lat", VNum 0%float); ("lng", VNum 0%float);
           ("timestamp", VNum 1000%float)])).
Proof.
  apply (registration_record Codec.parse Codec.stringify Codec.unlimited).
  - reflexivity.
  - reflexivity.
  - reflexivity.
Defined.

(** ** The shared position source *)

Section SharedSource.

Import Geolocation SharedGeolocation.













(** C8. When the service holds a sample, [subscribe] calls the callback of a
    new consumer with that sample before it returns: it is the one call the
    subscription makes. *)
Theorem late_subscriber_gets_sample (onPosition onError : Callback)
    (position : Position) (w : World) :
  currentPosition (service w) = Some position ->
  set_has onPosition (callbacks (service w)) = false ->
  filter is_call (subscribe onPosition onError w).2
  = [CallPosition onPosition position].
Proof.
  destruct w as [[cp cbs ecbs wid iw] [av ws nx]]. simpl.
  intros -> Hnew. unfold subscribe, startWatching. simpl. rewrite Hnew.
  by destruct iw, av.
Qed.

End SharedSource.

(** Two consumers come and go, a third one comes later. *)
Example watch_counts :
  let two := [SharedGeolocation.Subscribe 1 2; SharedGeolocation.Subscribe 3 4] in
  let first_leaves :=
    two ++ [SharedGeolocation.Unsubscribes (SharedGeolocation.Remove 1 2)] in
  let both_left :=
    first_leaves
    ++ [SharedGeolocation.Unsubscribes (SharedGeolocation.Remove 3 4)] in
  let open ops :=
    SharedGeolocation.open_watches
      (SharedGeolocation.run ops (SharedGeolocation.initial true)) in
  open two = 1 /\ open first_leaves = 1 /\ open both_left = 0 /\
  open (both_left ++ [SharedGeolocation.Subscribe 5 6]) = 1.
Proof. vm_compute. repeat split. Qed.

(** The same callback subscribed twice is registered once and is not called
    the second time. *)
Example duplicate_subscription :
  let w :=
    SharedGeolocation.run
      [SharedGeolocation.Subscribe 1 2;
       SharedGeolocation.Sample SharedGeolocation.example_position]
      (SharedGeolocation.initial true) in
  (SharedGeolocation.subscribe 1 2 w).1.1 = SharedGeolocation.Nothing /\
  filter SharedGeolocation.is_call (SharedGeolocation.subscribe 1 2 w).2 = [].
Proof. vm_compute. repeat split. Qed.

(** A second consumer subscribes after the first sample has arrived. *)
Lemma late_subscriber_gets_sample_example :
  let w :=
    SharedGeolocation.run
      [SharedGeolocation.Subscribe 1 2;
       SharedGeolocation.Sample SharedGeolocation.example_position]
      (SharedGeolocation.initial true) in
  filter SharedGeolocation.is_call (SharedGeolocation.subscribe 3 4 w).2
  = [SharedGeolocation.CallPosition 3 SharedGeolocation.example_position].
Proof.
  apply late_subscriber_gets_sample.
  - reflexivity.
  - reflexivity.
Defined.

(** ** The location trackers *)

Section TrackerFacts.

Import Geolocation Tracker.

Variable win : Window.

Lemma render_same_props (c : Component) :
  render win (isTracking c) c = (c, []).
Proof. unfold render. by rewrite bool_decide_true. Qed.

Lemma commit_writes (c : Component) (written : State * list Effect) :
  commit win c written = (with_state c (fst written), snd written).
Proof.
  unfold commit.
  change (isTracking c) with (isTracking (with_state c (fst written))).
  rewrite render_same_props. by rewrite app_nil_r.
Qed.

(** A render with the props unchanged (what a poll or a reload of the vessel
    list in the parent amounts to) changes nothing and requests nothing. *)
Lemma passive_render_changes_nothing (c : Component) :
  step win (Render (isTracking c)) c = (c, []).
Proof. apply render_same_props. Qed.

(** The retry button writes three state cells and nothing else: no request
    goes to the browser, and the watch and the props stay as they were. *)
Lemma retry_requests_nothing (c : Component) :
  step win Retry c = (with_state c (handleRetry (state c)), []).
Proof. simpl. by rewrite commit_writes. Qed.

(** Only the retry button brings a tracker back to [requesting]. *)
Lemma requesting_only_by_retry (i : Input) (c : Component) :
  locationStatus (state c) <> requesting ->
  locationStatus (state (step win i c).1) = requesting ->
  i = Retry.
Proof.
  intros Hc. destruct i as [tracking|p now|e|p now|e|]; simpl; try done.
  - unfold render. case_bool_decide; simpl; [done|].
    unfold cleanup, tracking_effect.
    destruct (watch c), tracking; simpl; try done.
    all: destruct (checkGeolocationSupport win _) as [[] msg]; simpl; done.
  - by rewrite commit_writes.
  - by rewrite commit_writes.
  - by rewrite commit_writes.
  - rewrite commit_writes. unfold watchPosition_error.
    destruct (code e) as [|[|[|[|n]]]]; simpl; done.
Qed.

(** The watch stays open after an error, and its next sample moves the
    tracker to [granted] whatever state it was in. *)
Lemma sample_grants (position : Position) (now : number) (c : Component) :
  locationStatus (state (step win (WatchSuccess position now) c).1) = granted
  /\ watch (step win (WatchSuccess position now) c).1 = watch c.
Proof. simpl. by rewrite commit_writes. Qed.

Lemma error_keeps_watch (error : PositionError) (c : Component) :
  watch (step win (WatchError error) c).1 = watch c /\
  browser (step win (WatchError error) c).1 = browser c.
Proof. simpl. by rewrite commit_writes. Qed.

End TrackerFacts.

(** After a timeout the watch is still open; its next sample makes the
    tracker [granted] again, without any retry. *)
Example timeout_then_sample :
  let (c0, _) :=
    Tracker.mount Tracker.secure_page Tracker.CoastGuard true
      (Geolocation.navigator true) in
  let (c1, _) :=
    Tracker.step Tracker.secure_page (Tracker.WatchError Tracker.timed_out)
      c0 in
  let (c2, _) :=
    Tracker.step Tracker.secure_page
      (Tracker.WatchSuccess Tracker.moving 6000%float) c1 in
  Tracker.locationStatus (Tracker.state c1) = Tracker.timeout /\
  Tracker.retryAttempts (Tracker.state c1) = 1 /\
  Tracker.locationStatus (Tracker.state c2) = Tracker.granted /\
  Tracker.speed (Tracker.state c2) = 9.7192%float.
Proof. vm_compute. repeat split. Qed.

(** C5, on the code. A tracker is mounted with tracking enabled: it issues
    the one-shot request and opens the watch. The watch reports a denied
    permission: the tracker is [denied], and stays so across renders with
    unchanged props. The retry button then brings it to [requesting], but
    issues no request at all: no [getCurrentPosition], no [watchPosition];
    the effect that issues them depends on [isTracking] only. *)
Theorem retry_issues_no_request (k : Tracker.Kind) :
  let (c0, mounted) :=
    Tracker.mount Tracker.secure_page k true (Geolocation.navigator true) in
  let (c1, _) :=
    Tracker.run Tracker.secure_page
      [Tracker.WatchError Tracker.permission_denied;
       Tracker.Render true; Tracker.Render true] c0 in
  let (c2, retried) := Tracker.step Tracker.secure_page Tracker.Retry c1 in
  filter Tracker.is_request mounted
  = [Tracker.GetCurrentPosition Tracker.one_shot_options;
     Tracker.WatchPosition 1 Tracker.watch_options] /\
  Tracker.locationStatus (Tracker.state c1) = Tracker.denied /\
  Tracker.locationStatus (Tracker.state c2) = Tracker.requesting /\
  retried = [] /\
  Tracker.watch c2 = Tracker.watch c1.
Proof. destruct k; vm_compute; repeat split. Qed.

(** ** Samples folded into records *)

Section SampleFacts.

Import App.

Variable JSON_stringify : jsval -> string.
Variable storage_accepts : string -> string -> bool.

Abbreviation fold_sample := (View.fold_sample JSON_stringify storage_accepts).

Lemma fold_sample_coast_guard position now t1 t2 st (s : Sys) v :
  coastGuardVessel (app s) = Some v ->
  coastGuardVessel
    (app (final (fold_sample Tracker.CoastGuard position now t1 t2 st s)))
  = Some (CoastGuardVessel.with_fix v
            {| lat := Geolocation.latitude (Geolocation.coords position);
               lng := Geolocation.longitude (Geolocation.coords position);
               timestamp := t1 |}
            (Tracker.speedKnots (Geolocation.coords position))
            (Tracker.headingDegrees (Geolocation.coords position)) t2).
Proof.
  intros Hv. unfold View.fold_sample. cbn [snd Tracker.watchPosition_success].
  cbn [View.deliver Tracker.location_update View.onLocationUpdate].
  unfold updateCoastGuardLocation, mbind, M_bind, read_state. cbn.
  rewrite Hv. done.
Qed.

Lemma fold_sample_fisherman position now t1 t2 st (s : Sys) b :
  boatData (app s) = Some b ->
  boatData
    (app (final (fold_sample Tracker.Fisherman position now t1 t2 st s)))
  = Some (BoatData.with_location b
            {| lat := Geolocation.latitude (Geolocation.coords position);
               lng := Geolocation.longitude (Geolocation.coords position);
               timestamp := t1 |} t2).
Proof.
  intros Hb. unfold View.fold_sample. cbn [snd Tracker.watchPosition_success].
  cbn [View.deliver Tracker.location_update View.onLocationUpdate].
  unfold updateLocation, write_back, mbind, M_bind, read_state. cbn.
  rewrite Hb. cbn.
  destruct (map_throwing _ _); cbn; [|done].
  unfold setItem. destruct (storage_accepts _ _); done.
Qed.

(** C6, as the code has it. A sample folded into the coast-guard record
    stores the reported speed times 1.94384 (0 when none is reported) and the
    reported heading (0 when none is reported); a speed of 0 with no heading
    gives 0 and 0. A sample folded into a fisherman's vessel record leaves
    the stored speed and heading as they were, whatever the sample reports:
    on that path the conversion is missing. *)
Theorem sample_speed_and_heading position now t1 t2 st
    (patrol : Sys) (v : CoastGuardVessel.t)
    (fishing : Sys) (b : BoatData.t) :
  coastGuardVessel (app patrol) = Some v ->
  boatData (app fishing) = Some b ->
  (exists v',
     coastGuardVessel
       (app (final
          (fold_sample Tracker.CoastGuard position now t1 t2 st patrol)))
     = Some v' /\
     CoastGuardVessel.speed v'
     = match Geolocation.speed (Geolocation.coords position) with
       | Some reported => (reported * 1.94384)%float
       | None => 0%float
       end /\
     CoastGuardVessel.heading v'
     = match Geolocation.heading (Geolocation.coords position) with
       | Some reported => reported
       | None => 0%float
       end) /\
  (0 * 1.94384)%float = 0%float /\
  (exists b',
     boatData
       (app (final
          (fold_sample Tracker.Fisherman position now t1 t2 st fishing)))
     = Some b' /\
     BoatData.speed b' = BoatData.speed b /\
     BoatData.heading b' = BoatData.heading b).
Proof.
  intros Hv Hb. split; [|split].
  - eexists. split; [by apply fold_sample_coast_guard|]. done.
  - reflexivity.
  - eexists. split; [by apply fold_sample_fisherman|]. done.
Qed.

End SampleFacts.

(** The coast-guard tracker at rest, and the fisherman of [example_session]:
    speed 0 and no heading are stored as 0 and 0. *)
Lemma sample_speed_and_heading_example :
  (exists v',
     App.coastGuardVessel
       (App.app (App.final
          (View.fold_sample Codec.stringify Codec.unlimited Tracker.CoastGuard
             Tracker.at_rest 5000%float 5000%float 5000%float
             Tracker.initial_state View.example_patrol)))
     = Some v' /\
     App.CoastGuardVessel.speed v'
     = match Geolocation.speed (Geolocation.coords Tracker.at_rest) with
       | Some reported => (reported * 1.94384)%float
       | None => 0%float
       end /\
     App.CoastGuardVessel.heading v'
     = match Geolocation.heading (Geolocation.coords Tracker.at_rest) with
       | Some reported => reported
       | None => 0%float
       end) /\
  (0 * 1.94384)%float = 0%float /\
  (exists b',
     App.boatData
       (App.app (App.final
          (View.fold_sample Codec.stringify Codec.unlimited Tracker.Fisherman
             Tracker.at_rest 5000%float 5000%float 5000%float
             Tracker.initial_state App.example_session)))
     = Some b' /\
     App.BoatData.speed b' = App.BoatData.speed App.example_boat /\
     App.BoatData.heading b' = App.BoatData.heading App.example_boat).
Proof.
  eapply (sample_speed_and_heading Codec.stringify Codec.unlimited).
  - reflexivity.
  - reflexivity.
Defined.

(** The watch of the fisherman's tracker reports 5 m/s: the record of
    [example_session] gets the new position, and its stored speed is still 0,
    not 5 * 1.94384. *)
Lemma fisherman_sample_drops_speed :
  exists b',
    App.boatData
      (App.app (App.final
         (View.fold_sample Codec.stringify Codec.unlimited Tracker.Fisherman
            Tracker.moving 5000%float 5000%float 5000%float
            Tracker.initial_state App.example_session)))
    = Some b' /\
    Geolocation.speed (Geolocation.coords Tracker.moving) = Some 5%float /\
    App.lat (App.BoatData.location b') = 12.5%float /\
    App.BoatData.speed b' = 0%float /\
    App.BoatData.speed b' <> (5 * 1.94384)%float.
Proof.
  eexists. split; [vm_compute; reflexivity|].
  split; [reflexivity|]. split; [reflexivity|]. split; [reflexivity|].
  intros H. apply (f_equal (fun x => PrimFloat.eqb x 0%float)) in H.
  vm_compute in H. discriminate H.
Qed.

(** * Further properties of the code *)

(** ** Updates of the vessel list *)

Section ListUpdates.

Import App.

Variable JSON_parse : string -> option jsval.
Variable JSON_stringify : jsval -> string.
Variable storage_accepts : string -> string -> bool.

Abbreviation updateLocation := (updateLocation JSON_stringify storage_accepts).
Abbreviation updateBoatStatusByCoastGuard :=
  (updateBoatStatusByCoastGuard JSON_stringify storage_accepts).
Abbreviation handleFishermanRegistration :=
  (handleFishermanRegistration JSON_parse JSON_stringify storage_accepts).
Abbreviation register := (register JSON_parse JSON_stringify storage_accepts).

Implicit Types (b x : BoatData.t) (boats : list BoatData.t).

(** The records with the identifier [id] replaced by [b']. *)
Lemma map_replace_boats (id : string) b' boats :
  map_throwing (replace_matching id (boat_json b')) (boat_json <$> boats)
  = Ok (boat_json <$>
          ((fun x => if bool_decide (BoatData.aisId x = id) then b' else x)
           <$> boats)).
Proof.
  induction boats as [|x boats IH]; [done|].
  rewrite !fmap_cons. cbn [map_throwing]. rewrite IH.
  unfold replace_matching. rewrite boat_json_aisId. cbn [strict_eq_string].
  by destruct (bool_decide (BoatData.aisId x = id)).
Qed.

(** The records with the identifier [id] given the status [status]. *)
Lemma map_restatus_boats (id : string) (status : Status) boats :
  map_throwing (restatus_matching id status) (boat_json <$> boats)
  = Ok (boat_json <$>
          ((fun x =>
              if bool_decide (BoatData.aisId x = id)
              then BoatData.with_status x status else x)
           <$> boats)).
Proof.
  induction boats as [|x boats IH]; [done|].
  rewrite !fmap_cons. cbn [map_throwing]. rewrite IH.
  destruct (bool_decide (BoatData.aisId x = id)) eqn:Hx.
  - apply bool_decide_eq_true in Hx. subst id.
    by rewrite restatus_matching_boat.
  - unfold restatus_matching. rewrite boat_json_aisId.
    cbn [strict_eq_string]. by rewrite Hx.
Qed.

Lemma write_back_run (f : jsval -> outcome jsval) (s : Sys)
    (updated : list jsval) :
  map_throwing f (allBoats (app s)) = Ok updated ->
  storage_accepts mirror_key (JSON_stringify (VArr updated)) = true ->
  write_back JSON_stringify storage_accepts f s
  = {| result := Ok tt;
       final :=
         {| app :=
              {| userType := userType (app s);
                 isRegistered := isRegistered (app s);
                 boatData := boatData (app s);
                 allBoats := updated;
                 isTracking := isTracking (app s);
                 coastGuardVessel := coastGuardVessel (app s);
                 isCoastGuardTracking := isCoastGuardTracking (app s) |};
            localStorage :=
              <[mirror_key := JSON_stringify (VArr updated)]>
                (localStorage s) |};
       emitted :=
         [SetItem mirror_key (JSON_stringify (VArr updated));
          DispatchEvent broadcast] |}.
Proof.
  intros Hmap Hq. unfold write_back, mbind, M_bind, read_state, lift. cbn.
  rewrite Hmap. cbn. unfold setItem. rewrite Hq. done.
Qed.

Lemma updateLocation_typed (lat lng t1 t2 : number) (s : Sys) b boats :
  boatData (app s) = Some b ->
  allBoats (app s) = boat_json <$> boats ->
  (forall text, storage_accepts mirror_key text = true) ->
  let b' :=
    BoatData.with_location b
      {| App.lat := lat; App.lng := lng; timestamp := t1 |} t2 in
  let boats' :=
    (fun x => if bool_decide (BoatData.aisId x = BoatData.aisId b)
              then b' else x) <$> boats in
  updateLocation lat lng t1 t2 s
  = {| result := Ok tt;
       final :=
         {| app :=
              {| userType := userType (app s);
                 isRegistered := isRegistered (app s);
                 boatData := Some b';
                 allBoats := boat_json <$> boats';
                 isTracking := isTracking (app s);
                 coastGuardVessel := coastGuardVessel (app s);
                 isCoastGuardTracking := isCoastGuardTracking (app s) |};
            localStorage :=
              <[mirror_key := JSON_stringify (VArr (boat_json <$> boats'))]>
                (localStorage s) |};
       emitted :=
         [ConsoleLog "Fisherman location updated:";
          SetItem mirror_key (JSON_stringify (VArr (boat_json <$> boats')));
          DispatchEvent broadcast] |}.
Proof.
  intros Hb Hl Hq b' boats'.
  unfold App.updateLocation, mbind, M_bind, read_state. cbn.
  rewrite Hb. cbn.
  rewrite (write_back_run _ _ (boat_json <$> boats'));
    [|cbn; rewrite Hl; apply map_replace_boats|apply Hq].
  reflexivity.
Qed.

(** X1. A location update rewrites the records that carry the boat's
    identifier and nothing else: the list keeps its length and its order,
    every other record is unchanged, and the list written to the mirror is
    the list of the view. When the boat is not in the view's list, the list is
    written back as it is. *)
Theorem location_update_rewrites_own_record (lat lng t1 t2 : number)
    (s : Sys) b boats :
  boatData (app s) = Some b ->
  allBoats (app s) = boat_json <$> boats ->
  (forall text, storage_accepts mirror_key text = true) ->
  let r := updateLocation lat lng t1 t2 s in
  let b' :=
    BoatData.with_location b
      {| App.lat := lat; App.lng := lng; timestamp := t1 |} t2 in
  let boats' :=
    (fun x => if bool_decide (BoatData.aisId x = BoatData.aisId b)
              then b' else x) <$> boats in
  result r = Ok tt /\
  boatData (app (final r)) = Some b' /\
  allBoats (app (final r)) = boat_json <$> boats' /\
  localStorage (final r) !! mirror_key
  = Some (JSON_stringify (VArr (boat_json <$> boats'))) /\
  length boats' = length boats /\
  (BoatData.aisId b ∉ (BoatData.aisId <$> boats) -> boats' = boats).
Proof.
  intros Hb Hl Hq r b' boats'.
  subst r. rewrite (updateLocation_typed lat lng t1 t2 s b boats Hb Hl Hq).
  cbn. split; [done|]. split; [done|]. split; [done|].
  split; [apply lookup_insert_eq|]. split; [apply length_fmap|].
  intros Hnot. subst boats'. clear -Hnot.
  induction boats as [|x boats IH]; [done|].
  rewrite fmap_cons in Hnot. apply not_elem_of_cons in Hnot as [Hx Hrest].
  rewrite fmap_cons. rewrite bool_decide_false by congruence.
  f_equal. by apply IH.
Qed.

(** X2. On a freshly loaded page the view's list is empty, so the first
    location update after a registration writes a list that holds the
    fisherman's own record only: whatever vessels the mirror listed before the
    registration are gone from it. *)
Theorem first_location_update_overwrites_mirror
    (c : Registration) (lat lng t1 t2 : number) (s : Sys) :
  mirror_well_formed JSON_parse (localStorage s !! mirror_key) = true ->
  allBoats (app s) = [] ->
  (forall text, storage_accepts mirror_key text = true) ->
  let r := (register c;; updateLocation lat lng t1 t2) s in
  let b' :=
    BoatData.with_location (registered c)
      {| App.lat := lat; App.lng := lng; timestamp := t1 |} t2 in
  result r = Ok tt /\
  allBoats (app (final r)) = [boat_json b'] /\
  localStorage (final r) !! mirror_key
  = Some (JSON_stringify (VArr [boat_json b'])).
Proof.
  intros Hwf Hmem Hq r b'.
  assert (Hnull : existsb nullish (allBoats (app s)) = false)
    by (by rewrite Hmem).
  destruct (registration_run JSON_parse JSON_stringify storage_accepts
              (reg_aisId c) (reg_boatId c) (reg_fishermanName c)
              (reg_contactInfo c) (reg_t1 c) (reg_t2 c) s Hwf Hnull Hq)
    as (i & j & _ & Hj & Hr & Hb & Ha & _).
  fold (registered c) in *. fold (register c s) in *.
  rewrite Hmem in Hj, Ha. injection Hj as <-. cbn [put_at app] in Ha.
  destruct (bind_returns (register c)
              (fun _ => updateLocation lat lng t1 t2) s tt Hr) as [Hres Hfin].
  subst r. rewrite Hres, Hfin.
  rewrite (updateLocation_typed lat lng t1 t2 _ (registered c)
             [registered c] Hb Ha Hq).
  cbn [result final app allBoats localStorage fmap list_fmap].
  rewrite bool_decide_true by done.
  split; [done|]. split; [done|]. apply lookup_insert_eq.
Qed.

Lemma updateBoatStatusByCoastGuard_typed (id : string) (status : Status)
    (s : Sys) boats :
  allBoats (app s) = boat_json <$> boats ->
  (forall text, storage_accepts mirror_key text = true) ->
  let r := updateBoatStatusByCoastGuard id status s in
  let boats' :=
    (fun x => if bool_decide (BoatData.aisId x = id)
              then BoatData.with_status x status else x) <$> boats in
  result r = Ok tt /\
  allBoats (app (final r)) = boat_json <$> boats' /\
  localStorage (final r)
  = <[mirror_key := JSON_stringify (VArr (boat_json <$> boats'))]>
      (localStorage s) /\
  emitted r
  = [SetItem mirror_key (JSON_stringify (VArr (boat_json <$> boats')));
     DispatchEvent broadcast] /\
  boatData (app (final r))
  = match boatData (app s) with
    | Some b =>
        Some (if bool_decide (BoatData.aisId b = id)
              then BoatData.with_status b status else b)
    | None => None
    end.
Proof.
  intros Hl Hq r boats'. subst r.
  unfold App.updateBoatStatusByCoastGuard, mbind, M_bind, read_state. cbn.
  rewrite (write_back_run _ _ (boat_json <$> boats'));
    [|cbn; rewrite Hl; apply map_restatus_boats|apply Hq].
  cbn. destruct (boatData (app s)) as [b|]; cbn; [|done].
  destruct (bool_decide (BoatData.aisId b = id)); cbn; done.
Qed.

(** X3. A status update by the coast guard gives the new status to every
    record with the identifier and changes no other field and no other
    record; the list keeps its length and order. For an identifier that is
    not in the list the list is unchanged, and it is still written to the
    mirror and broadcast. The fisherman's own record follows when it has the
    identifier. *)
Theorem coast_guard_status_update (id : string) (status : Status)
    (s : Sys) boats :
  allBoats (app s) = boat_json <$> boats ->
  (forall text, storage_accepts mirror_key text = true) ->
  let r := updateBoatStatusByCoastGuard id status s in
  let boats' :=
    (fun x => if bool_decide (BoatData.aisId x = id)
              then BoatData.with_status x status else x) <$> boats in
  result r = Ok tt /\
  allBoats (app (final r)) = boat_json <$> boats' /\
  localStorage (final r) !! mirror_key
  = Some (JSON_stringify (VArr (boat_json <$> boats'))) /\
  emitted r
  = [SetItem mirror_key (JSON_stringify (VArr (boat_json <$> boats')));
     DispatchEvent broadcast] /\
  length boats' = length boats /\
  (id ∉ (BoatData.aisId <$> boats) -> boats' = boats) /\
  (forall i x,
     boats !! i = Some x ->
     exists x',
       boats' !! i = Some x' /\
       BoatData.aisId x' = BoatData.aisId x /\
       BoatData.location x' = BoatData.location x /\
       BoatData.lastUpdate x' = BoatData.lastUpdate x /\
       BoatData.status x'
       = (if bool_decide (BoatData.aisId x = id)
          then status else BoatData.status x)).
Proof.
  intros Hl Hq r boats'.
  destruct (updateBoatStatusByCoastGuard_typed id status s boats Hl Hq)
    as (Hr & Ha & Hs & He & _).
  fold r in Hr, Ha, Hs, He. fold boats' in Ha, Hs, He.
  split; [done|]. split; [done|].
  split; [rewrite Hs; apply lookup_insert_eq|]. split; [done|].
  split; [apply length_fmap|]. split.
  - intros Hnot. subst boats'. clear -Hnot.
    induction boats as [|x boats IH]; [done|].
    rewrite fmap_cons in Hnot. apply not_elem_of_cons in Hnot as [Hx Hrest].
    rewrite fmap_cons. rewrite bool_decide_false by congruence.
    f_equal. by apply IH.
  - intros i x Hi. subst boats'. rewrite list_lookup_fmap, Hi. cbn.
    eexists. split; [done|].
    by destruct (bool_decide (BoatData.aisId x = id)).
Qed.

(** The state a reload leaves. *)
Lemma loadVesselsFromStorage_final (s : Sys) :
  final (loadVesselsFromStorage JSON_parse s)
  = {| app :=
         {| userType := userType (app s);
            isRegistered := isRegistered (app s);
            boatData := boatData (app s);
            allBoats := shown JSON_parse (localStorage s !! mirror_key);
            isTracking := isTracking (app s);
            coastGuardVessel := coastGuardVessel (app s);
            isCoastGuardTracking := isCoastGuardTracking (app s) |};
       localStorage := localStorage s |}.
Proof.
  unfold loadVesselsFromStorage, shown, mbind, M_bind, getItem. simpl.
  destruct (localStorage s !! mirror_key) as [text|]; [|done].
  destruct (truthy text); [|done].
  unfold try_catch, parse. cbn.
  destruct (JSON_parse text) as [v|]; [|done]. cbn.
  destruct v; try done. cbn.
  destruct (existsb nullish l) eqn:Hl.
  - rewrite (map_details_throws l Hl). done.
  - destruct (map_details_returns l Hl) as [ys ->]. done.
Qed.

(** X4. Reloading twice is reloading once, and a reload touches nothing but
    the list of the view: the mirror, the fisherman's record, the coast-guard
    record and the flags are as before. *)
Theorem reload_is_idempotent (s : Sys) :
  let once := loadVesselsFromStorage JSON_parse s in
  let twice :=
    (loadVesselsFromStorage JSON_parse;; loadVesselsFromStorage JSON_parse)
      s in
  result twice = Ok tt /\
  final twice = final once /\
  localStorage (final once) = localStorage s /\
  boatData (app (final once)) = boatData (app s) /\
  coastGuardVessel (app (final once)) = coastGuardVessel (app s) /\
  isTracking (app (final once)) = isTracking (app s) /\
  isCoastGuardTracking (app (final once)) = isCoastGuardTracking (app s).
Proof.
  intros once twice.
  destruct (loadVesselsFromStorage_shown JSON_parse s) as (Hr & _ & _).
  destruct (bind_returns (loadVesselsFromStorage JSON_parse)
              (fun _ => loadVesselsFromStorage JSON_parse) s tt Hr)
    as [Hres Hfin].
  subst once twice. rewrite Hres, Hfin.
  split; [apply loadVesselsFromStorage_shown|].
  rewrite !loadVesselsFromStorage_final. cbn. done.
Qed.

(** X5. A registration that throws (the mirror holds JSON that is not an
    array of readable elements, or the storage quota is exceeded) has written
    nothing to the mirror and broadcast nothing, but the view is already
    registered: [boatData] holds the new record and [isRegistered] and
    [isTracking] are set. *)
Theorem failed_registration_leaves_mirror
    aisId boatId fishermanName contactInfo t1 t2 (s : Sys) (e : exn) :
  existsb nullish (allBoats (app s)) = false ->
  let r := handleFishermanRegistration aisId boatId fishermanName contactInfo
             t1 t2 s in
  result r = Throw e ->
  (e = TypeError \/ e = QuotaExceededError) /\
  localStorage (final r) = localStorage s /\
  filter is_write (emitted r) = [] /\
  (DispatchEvent broadcast ∉ emitted r) /\
  boatData (app (final r))
  = Some (newBoat aisId boatId fishermanName contactInfo t1 t2) /\
  isRegistered (app (final r)) = true /\
  isTracking (app (final r)) = true.
Proof.
  intros Hmem r.
  destruct (findIndex_from_returns 0 aisId (allBoats (app s)) Hmem)
    as [j Hj].
  assert (Hget : forall v k, get_field v k = Throw e -> e = TypeError).
  { intros [] k; simpl; congruence. }
  assert (Hfind : forall l i, findIndex_from i aisId l = Throw e ->
                              e = TypeError).
  { induction l as [|v l IH]; intros i; simpl; [done|].
    destruct (get_field v "aisId") eqn:Hv; [|intros [= <-]; eauto].
    destruct (strict_eq_string _ _); [done|]. apply IH. }
  subst r. unfold findIndex_aisId in *.
  unfold App.handleFishermanRegistration, stored_or_empty, mbind, M_bind,
    after, try_catch, lift, throw, mret, M_ret, setItem, parse, getItem,
    read_state, write_state, setBoatData, setAllBoats, setIsRegistered,
    setIsTracking, console_log, console_error, dispatchEvent, emit.
  unfold findIndex_aisId. cbn.
  destruct (localStorage s !! mirror_key) as [text|]; cbn.
  2: { destruct (storage_accepts _ _); cbn; rewrite ?Hj; cbn; intros [= <-].
       repeat split; eauto. by intros ?%elem_of_nil. }
  destruct (truthy text); cbn.
  2: { destruct (storage_accepts _ _); cbn; rewrite ?Hj; cbn; intros [= <-].
       repeat split; eauto. by intros ?%elem_of_nil. }
  destruct (JSON_parse text) as [v|]; cbn.
  2: { destruct (storage_accepts _ _); cbn; rewrite ?Hj; cbn; intros [= <-].
       repeat split; eauto.
       intros [[=]|?%elem_of_nil]%elem_of_cons; done. }
  destruct v; cbn; try (intros [= <-]; repeat split; eauto;
                        by intros ?%elem_of_nil).
  destruct (findIndex_from 0 aisId l) as [i|e'] eqn:Hi; cbn.
  2: { intros [= <-]. apply Hfind in Hi. repeat split; eauto.
       by intros ?%elem_of_nil. }
  destruct (storage_accepts _ _); cbn; rewrite ?Hj; cbn; intros [= <-].
  repeat split; eauto. by intros ?%elem_of_nil.
Qed.

(** X6. A registration on a mirror whose content [JSON.parse] rejects logs
    the parse error and starts the list anew: the mirror then holds the new
    record alone. *)
Theorem registration_on_unparsable_mirror
    aisId boatId fishermanName contactInfo t1 t2 (s : Sys) (text : string) :
  localStorage s !! mirror_key = Some text ->
  truthy text = true ->
  JSON_parse text = None ->
  existsb nullish (allBoats (app s)) = false ->
  (forall value, storage_accepts mirror_key value = true) ->
  let r := handleFishermanRegistration aisId boatId fishermanName contactInfo
             t1 t2 s in
  let b := newBoat aisId boatId fishermanName contactInfo t1 t2 in
  result r = Ok tt /\
  localStorage (final r) !! mirror_key
  = Some (JSON_stringify (VArr [boat_json b])) /\
  emitted r
  = [ConsoleError "Error parsing stored vessels:";
     SetItem mirror_key (JSON_stringify (VArr [boat_json b]));
     DispatchEvent broadcast;
     ConsoleLog "New vessel registered:"].
Proof.
  intros Hs Ht Hp Hmem Hq r b.
  destruct (findIndex_from_returns 0 aisId (allBoats (app s)) Hmem)
    as [j Hj].
  subst r.
  unfold App.handleFishermanRegistration, stored_or_empty, mbind, M_bind,
    after, try_catch, lift, throw, mret, M_ret, setItem, parse, getItem,
    read_state, write_state, setBoatData, setAllBoats, setIsRegistered,
    setIsTracking, console_log, console_error, dispatchEvent, emit.
  unfold findIndex_aisId. cbn. rewrite Hs. cbn. rewrite Ht. cbn.
  rewrite Hp. cbn. rewrite Hq. cbn. rewrite Hj. cbn.
  split; [done|]. split; [apply lookup_insert_eq|done].
Qed.

End ListUpdates.

(** ** Writes, reloads and sessions *)

Section Persistence.

Import App.

Variable JSON_parse : string -> option jsval.
Variable JSON_stringify : jsval -> string.
Variable storage_accepts : string -> string -> bool.

Hypothesis parse_stringify :
  forall boats : list BoatData.t,
    forallb json_exact boats = true ->
    JSON_parse (JSON_stringify (VArr (boat_json <$> boats)))
    = Some (VArr (boat_json <$> boats)).
Hypothesis parse_empty : JSON_parse "" = None.
Hypothesis within_quota :
  forall text, storage_accepts mirror_key text = true.

Abbreviation updateBoatStatusByCoastGuard :=
  (updateBoatStatusByCoastGuard JSON_stringify storage_accepts).
Abbreviation register := (register JSON_parse JSON_stringify storage_accepts).
Abbreviation loadVesselsFromStorage := (loadVesselsFromStorage JSON_parse).
Abbreviation enterCoastGuard := (Session.enterCoastGuard JSON_parse).

Lemma restatus_exact (id : string) (status : Status)
    (boats : list BoatData.t) :
  forallb json_exact boats = true ->
  forallb json_exact
    ((fun x => if bool_decide (BoatData.aisId x = id)
               then BoatData.with_status x status else x) <$> boats) = true.
Proof.
  induction boats as [|x boats IH]; [done|]. cbn.
  intros [Hx Hl]%andb_prop. rewrite (IH Hl), andb_true_r.
  by destruct (bool_decide (BoatData.aisId x = id)).
Qed.

Lemma handleCustomStorageChange_run (s : Sys) :
  result (Session.handleCustomStorageChange JSON_parse s) = Ok tt /\
  final (Session.handleCustomStorageChange JSON_parse s)
  = final (loadVesselsFromStorage s).
Proof.
  unfold Session.handleCustomStorageChange, mbind, M_bind, console_log, emit.
  simpl.
  destruct (loadVesselsFromStorage_shown JSON_parse s) as (Hr & _ & _).
  destruct (App.loadVesselsFromStorage JSON_parse s) as [res fin em].
  simpl in *. by subst res.
Qed.

(** X7. A status update by the coast guard is what the listener of its
    broadcast shows: the reload that [handleCustomStorageChange] makes reads
    back from the mirror the very list the update left in the view. *)
Theorem status_update_survives_reload (id : string) (status : Status)
    (s : Sys) (boats : list BoatData.t) :
  allBoats (app s) = boat_json <$> boats ->
  forallb json_exact boats = true ->
  let updated := updateBoatStatusByCoastGuard id status s in
  let reloaded :=
    (updateBoatStatusByCoastGuard id status;;
     Session.handleCustomStorageChange JSON_parse) s in
  result reloaded = Ok tt /\
  allBoats (app (final reloaded)) = allBoats (app (final updated)) /\
  allBoats (app (final reloaded))
  = boat_json <$>
      ((fun x => if bool_decide (BoatData.aisId x = id)
                 then BoatData.with_status x status else x) <$> boats).
Proof.
  intros Hl Hexact updated reloaded.
  destruct (updateBoatStatusByCoastGuard_typed JSON_stringify storage_accepts
              id status s boats Hl within_quota) as (Hr & Ha & Hs & _).
  fold updated in Hr, Ha, Hs.
  destruct (bind_returns (updateBoatStatusByCoastGuard id status)
              (fun _ => Session.handleCustomStorageChange JSON_parse) s tt Hr)
    as [Hres Hfin].
  fold updated in Hres, Hfin. subst reloaded. rewrite Hres, Hfin.
  destruct (handleCustomStorageChange_run (final updated)) as [Hl0 Hl3].
  destruct (loadVesselsFromStorage_shown JSON_parse (final updated))
    as (Hl1 & Hl2 & _).
  split; [exact Hl0|]. rewrite Hl3, Hl2, Ha, Hs, lookup_insert_eq.
  destruct (mirror_holds_shown JSON_parse JSON_stringify parse_stringify
              parse_empty _ _ (or_intror eq_refl)
              (restatus_exact id status boats Hexact)) as [-> _].
  done.
Qed.

(** X8. A vessel stays listed after its fisherman has logged out: the logout
    resets the view and leaves the mirror alone, so a coast-guard session
    opened afterwards loads the mirror's list with the registered vessel in
    it. *)
Theorem vessel_listed_after_logout (c : Registration) (suffix : string)
    (t1 t2 : number) (s : Sys) (boats : list BoatData.t) :
  mirror_holds JSON_stringify (localStorage s !! mirror_key) boats ->
  forallb json_exact boats = true ->
  existsb nullish (allBoats (app s)) = false ->
  json_number (reg_t1 c) && json_number (reg_t2 c) = true ->
  let r :=
    (register c;; Session.logoutFisherman;; enterCoastGuard suffix t1 t2) s in
  result r = Ok tt /\
  boatData (app (final r)) = None /\
  isRegistered (app (final r)) = false /\
  coastGuardVessel (app (final r)) = Some (Session.cgVessel suffix t1 t2) /\
  allBoats (app (final r)) = boat_json <$> upsert (registered c) boats.
Proof.
  intros Hm Hexact Hmem Hc r.
  destruct (register_upsert JSON_parse JSON_stringify storage_accepts
              parse_stringify parse_empty within_quota c s boats Hm Hexact
              Hmem) as (Hr & Hm' & _).
  destruct (bind_returns (register c)
              (fun _ => Session.logoutFisherman;; enterCoastGuard suffix t1 t2)
              s tt Hr) as [Hres Hfin].
  subst r. rewrite Hres, Hfin.
  set (s1 := final (register c s)) in *.
  assert (Hexact' : forallb json_exact (upsert (registered c) boats) = true).
  { apply upsert_exact; [|done]. by apply registered_exact. }
  destruct (mirror_holds_shown JSON_parse JSON_stringify parse_stringify
              parse_empty _ _ Hm' Hexact') as [Hshown _].
  unfold Session.logoutFisherman, Session.enterCoastGuard,
    Session.coastGuardEffect, Session.setUserType, setIsRegistered,
    setBoatData, setIsTracking, setCoastGuardVessel, mbind, M_bind,
    read_state, write_state. cbn.
  match goal with |- context [App.loadVesselsFromStorage _ ?s'] =>
    pose proof (loadVesselsFromStorage_shown JSON_parse s') as (Hl1 & _ & _);
    pose proof (loadVesselsFromStorage_final JSON_parse s') as Hl2;
    destruct (App.loadVesselsFromStorage JSON_parse s') as [res fin em]
  end.
  cbn in *. subst res fin. cbn. rewrite Hshown. done.
Qed.

(** X21. A registration made in one tab reaches a coast-guard view in another
    tab through the storage event: the two tabs share the mirror and nothing
    else, and after [handleStorageChange] has run for the mirror's key the
    other tab lists the stored vessels with the new one upserted. An event
    for another key, or one without a key, changes nothing. *)
Theorem other_tab_sees_registration (c : Registration) (here there : Sys)
    (boats : list BoatData.t) (key : option string) :
  mirror_holds JSON_stringify (localStorage here !! mirror_key) boats ->
  forallb json_exact boats = true ->
  existsb nullish (allBoats (app here)) = false ->
  json_number (reg_t1 c) && json_number (reg_t2 c) = true ->
  key <> Some mirror_key ->
  let written := register c here in
  let notified :=
    {| app := app there; localStorage := localStorage (final written) |} in
  let r := Session.handleStorageChange JSON_parse (Some mirror_key) notified in
  result r = Ok tt /\
  allBoats (app (final r)) = boat_json <$> upsert (registered c) boats /\
  localStorage (final r) = localStorage (final written) /\
  Session.handleStorageChange JSON_parse key notified
  = {| result := Ok tt; final := notified; emitted := [] |}.
Proof.
  intros Hm Hexact Hmem Hc Hkey written notified r.
  destruct (register_upsert JSON_parse JSON_stringify storage_accepts
              parse_stringify parse_empty within_quota c here boats Hm Hexact
              Hmem) as (Hr & Hm' & _).
  fold written in Hr, Hm'.
  assert (Hexact' : forallb json_exact (upsert (registered c) boats) = true).
  { apply upsert_exact; [|done]. by apply registered_exact. }
  destruct (mirror_holds_shown JSON_parse JSON_stringify parse_stringify
              parse_empty _ _ Hm' Hexact') as [Hshown _].
  split; [|split; [|split]].
  - subst r. unfold Session.handleStorageChange.
    rewrite bool_decide_true by done.
    unfold mbind, M_bind, console_log, emit. simpl.
    destruct (loadVesselsFromStorage_shown JSON_parse notified)
      as (Hl & _ & _).
    destruct (App.loadVesselsFromStorage JSON_parse notified)
      as [res fin em]. simpl in *. by subst res.
  - subst r. unfold Session.handleStorageChange.
    rewrite bool_decide_true by done.
    unfold mbind, M_bind, console_log, emit. simpl.
    destruct (loadVesselsFromStorage_shown JSON_parse notified)
      as (_ & Hl & _).
    destruct (App.loadVesselsFromStorage JSON_parse notified)
      as [res fin em]. simpl in *. by rewrite Hl.
  - subst r. unfold Session.handleStorageChange.
    rewrite bool_decide_true by done.
    unfold mbind, M_bind, console_log, emit. simpl.
    pose proof (loadVesselsFromStorage_final JSON_parse notified) as Hl.
    destruct (App.loadVesselsFromStorage JSON_parse notified)
      as [res fin em]. simpl in *. by subst fin.
  - unfold Session.handleStorageChange. destruct key as [k|]; [|done].
    rewrite bool_decide_false by congruence. done.
Qed.

End Persistence.

(** ** The coast-guard session *)

Section CoastGuardSession.

Import App.

Variable JSON_parse : string -> option jsval.

(** X9. The coast-guard logout does not reset the tracking flag: after
    tracking was enabled, a logout and a new coast-guard session leave
    [isCoastGuardTracking] set (the tracker mounts with tracking enabled)
    while the new vessel record says [isTracking: false]. *)
Theorem tracking_flag_survives_logout (suffix : string) (t1 t2 : number)
    (s : Sys) :
  let r :=
    (toggleCoastGuardTracking true;; Session.logoutCoastGuard;;
     Session.enterCoastGuard JSON_parse suffix t1 t2) s in
  result r = Ok tt /\
  isCoastGuardTracking (app (final r)) = true /\
  coastGuardVessel (app (final r)) = Some (Session.cgVessel suffix t1 t2) /\
  CoastGuardVessel.isTracking (Session.cgVessel suffix t1 t2) = false.
Proof.
  intros r. subst r.
  unfold toggleCoastGuardTracking, Session.logoutCoastGuard,
    Session.enterCoastGuard, Session.coastGuardEffect, Session.setUserType,
    setIsRegistered, setAllBoats, setCoastGuardVessel,
    setIsCoastGuardTracking, mbind, M_bind, read_state, write_state. cbn.
  destruct (coastGuardVessel (app s)); cbn.
  all: match goal with |- context [loadVesselsFromStorage _ ?s'] =>
    pose proof (loadVesselsFromStorage_shown JSON_parse s') as (Hl1 & _ & _);
    pose proof (loadVesselsFromStorage_final JSON_parse s') as Hl2;
    destruct (loadVesselsFromStorage JSON_parse s') as [res fin em]
  end.
  all: cbn in *; subst res fin; done.
Qed.

End CoastGuardSession.

(** ** The shared service: subscribers and the cached sample *)

Section SharedService.

Import Geolocation SharedGeolocation.



Lemma set_delete_absent (x : Callback) (l : list Callback) :
  x ∉ l -> set_delete x l = l.
Proof.
  unfold set_delete. induction l as [|y l IH]; [done|].
  intros [Hy Hl]%not_elem_of_cons. rewrite filter_cons_True by done.
  f_equal. by apply IH.
Qed.


Lemma set_delete_idemp (x : Callback) (l : list Callback) :
  set_delete x (set_delete x l) = set_delete x l.
Proof.
  apply set_delete_absent. unfold set_delete.
  intros [Hx _]%list_elem_of_filter. by apply Hx.
Qed.






Lemma step_currentPosition (o : Op) (w : World) :
  currentPosition (service (step o w).1)
  = match o with
    | Sample position => Some position
    | _ => currentPosition (service w)
    end.
Proof.
  destruct w as [[cp cbs ecbs wid iw] [av ws nx]].
  destruct o as [f e|[|f e]|p|err]; simpl; try done.
  - unfold subscribe, startWatching. simpl.
    by destruct (set_has f cbs), iw, av.
  - by case_bool_decide.
Qed.

Lemma run_currentPosition (ops : list Op) (w : World) :
  getCurrentPosition (run ops w) = last_sample ops (getCurrentPosition w).
Proof.
  unfold getCurrentPosition, run. revert w.
  induction ops as [|o ops IH]; intros w; [done|].
  simpl. rewrite IH, step_currentPosition. by destruct o.
Qed.

(** X11. The cached sample is never cleared: [getCurrentPosition] returns
    the last sample the browser delivered, also after every subscriber has
    left and the watch was closed, and that sample is what the next new
    subscriber is called with. *)
Theorem cached_sample_outlives_the_watch (ops : list Op) (w : World)
    (onPosition onError : Callback) (position : Position) :
  last_sample ops (getCurrentPosition w) = Some position ->
  set_has onPosition (callbacks (service (run ops w))) = false ->
  getCurrentPosition (run ops w) = Some position /\
  filter is_call (subscribe onPosition onError (run ops w)).2
  = [CallPosition onPosition position].
Proof.
  intros Hlast Hnew. pose proof (run_currentPosition ops w) as Hcur.
  rewrite Hlast in Hcur. split; [done|].
  destruct (run ops w) as [[cp cbs ecbs wid iw] [av ws nx]].
  unfold getCurrentPosition in Hcur. simpl in *. subst cp.
  unfold subscribe, startWatching. simpl. rewrite Hnew.
  by destruct iw, av.
Qed.

(** X12. Error callbacks are kept in a set and removed by identity: when two
    subscribers gave the same error callback, the unsubscription of the first
    removes it for the second as well, which stays subscribed to samples and
    is no longer told of errors. *)
Theorem shared_error_callback_is_dropped (f1 f2 e : Callback) (w : World)
    (error : PositionError) :
  f1 <> f2 ->
  f1 ∉ callbacks (service w) ->
  f2 ∉ callbacks (service w) ->
  let s1 := subscribe f1 e w in
  let s2 := subscribe f2 e s1.1.2 in
  let w3 := (unsubscribe s1.1.1 s2.1.2).1 in
  (f2 ∈ callbacks (service w3)) /\
  (e ∉ errorCallbacks (service w3)) /\
  (CallError e error ∉ (on_error error w3).2).
Proof.
  intros Hne H1 H2 s1 s2 w3.
  destruct w as [[cp cbs ecbs wid iw] [av ws nx]]. simpl in H1, H2.
  assert (Hw3 : callbacks (service w3) = set_delete f1 (set_add f2 (set_add f1 cbs))
                /\ errorCallbacks (service w3)
                   = set_delete e (set_add e (set_add e ecbs))).
  { subst w3 s2 s1. unfold subscribe, set_has. simpl.
    rewrite bool_decide_false by done.
    assert (Hf2 : f2 ∉ set_add f1 cbs).
    { unfold set_add. rewrite bool_decide_false by done.
      intros [?|?%list_elem_of_singleton]%elem_of_app; [done|].
      by apply Hne. }
    unfold startWatching. simpl.
    destruct iw, av; simpl;
      rewrite (bool_decide_false (f2 ∈ set_add f1 cbs)) by done; simpl;
      unfold startWatching; simpl; case_bool_decide; simpl; done. }
  destruct Hw3 as [Hc He].
  assert (Hdrop : e ∉ errorCallbacks (service w3)).
  { rewrite He. unfold set_delete. intros [Hx _]%list_elem_of_filter.
    by apply Hx. }
  split; [|split; [done|]].
  - rewrite Hc. unfold set_delete. apply list_elem_of_filter.
    split; [by intros ->|].
    unfold set_add at 1. case_bool_decide; [done|].
    apply elem_of_app. right. by apply list_elem_of_singleton.
  - unfold on_error. simpl.
    intros [[=]|(g & [= <-] & Hg)%list_elem_of_fmap]%elem_of_cons. done.
Qed.



End SharedService.

(** ** The trackers: the watch, the retry counter, unsupported pages *)

Section TrackerWatch.

Import Geolocation Tracker.

Variable win : Window.

Lemma support_by_availability (n n' : Navigator) :
  available n = available n' ->
  checkGeolocationSupport win n = checkGeolocationSupport win n'.
Proof. unfold checkGeolocationSupport. by intros ->. Qed.

Lemma render_holds (tracking : bool) (c : Component) :
  holds_its_watch win c -> holds_its_watch win (render win tracking c).1.
Proof.
  intros [Hw Hs]. unfold render. case_bool_decide as Hsame; [by split|].
  destruct c as [k st tr w nav]. simpl in *.
  assert (Hclean :
    watches (browser (cleanup
      {| kind := k; state := st; isTracking := tr; watch := w;
         browser := nav |}).1) = [] /\
    watch (cleanup
      {| kind := k; state := st; isTracking := tr; watch := w;
         browser := nav |}).1 = None /\
    available (browser (cleanup
      {| kind := k; state := st; isTracking := tr; watch := w;
         browser := nav |}).1) = available nav).
  { unfold cleanup. simpl. destruct w as [id|]; simpl; [|done].
    rewrite Hw. unfold filter. simpl.
    by rewrite decide_False by (by intros []). }
  destruct (cleanup _) as [c1 closed]. simpl in Hclean.
  destruct Hclean as (Hw1 & Hn1 & Ha1).
  unfold tracking_effect. destruct tracking; simpl.
  - destruct (checkGeolocationSupport win (browser c1))
      as [supported msg] eqn:Hsup.
    destruct supported; simpl.
    + split; simpl; [by rewrite Hw1|].
      split; [intros _; split; [done|]|eauto].
      rewrite (support_by_availability _ (browser c1)) by done.
      by rewrite Hsup.
    + split; simpl; [done|].
      split; [by intros [? [=]]|]. rewrite Hsup. by intros [_ [=]].
  - split; simpl; [done|].
    split; [by intros [? [=]]|by intros [[=] _]].
Qed.

Lemma step_holds (i : Input) (c : Component) :
  holds_its_watch win c -> holds_its_watch win (step win i c).1.
Proof.
  intros Hc. destruct i; simpl; [by apply render_holds|..];
    rewrite commit_writes; exact Hc.
Qed.

Lemma run_holds (inputs : list Input) (c : Component) :
  holds_its_watch win c -> holds_its_watch win (run win inputs c).1.
Proof.
  revert c. induction inputs as [|i inputs IH]; intros c Hc; [done|].
  simpl. pose proof (step_holds i c Hc) as Hs.
  destruct (step win i c) as [c1 first]. simpl in Hs.
  pose proof (IH c1 Hs) as Hr. by destruct (run win inputs c1).
Qed.

Lemma mount_holds (k : Kind) (tracking available : bool) :
  holds_its_watch win (mount win k tracking (navigator available)).1.
Proof.
  unfold mount, tracking_effect. destruct tracking; simpl.
  - destruct (checkGeolocationSupport win _) as [supported msg] eqn:Hsup.
    destruct supported; simpl.
    + split; simpl; [done|]. split; [intros _; split; [done|]|eauto].
      rewrite (support_by_availability _ (navigator available)) by done.
      by rewrite Hsup.
    + split; simpl; [done|].
      split; [by intros [? [=]]|]. rewrite Hsup. by intros [_ [=]].
  - split; simpl; [done|].
    split; [by intros [? [=]]|by intros [[=] _]].
Qed.

(** X14. A mounted tracker never leaks a watch: whatever renders, toggles of
    the tracking prop, samples, errors and retries it has seen, the only
    watch open is the one its pending cleanup will close, there is one
    exactly while tracking is enabled on a page that supports geolocation,
    and none once tracking is switched off. *)
Theorem tracker_holds_one_watch (k : Kind) (tracking available : bool)
    (inputs : list Input) :
  let c := (run win inputs (mount win k tracking (navigator available)).1).1 in
  holds_its_watch win c /\
  length (watches (browser c)) <= 1 /\
  (isTracking c = false -> watches (browser c) = []).
Proof.
  intros c.
  assert (Hc : holds_its_watch win c) by apply run_holds, mount_holds.
  split; [done|]. destruct Hc as [Hw Hs]. rewrite Hw.
  destruct (watch c) as [id|]; simpl; [|split; [lia|done]].
  split; [lia|]. intros Hoff.
  destruct Hs as [Hs _]. destruct Hs as [Hon _]; [eauto|]. congruence.
Qed.

Lemma step_retryAttempts (i : Input) (c : Component) :
  retryAttempts (state (step win i c).1)
  = match i with
    | Retry => 0
    | WatchError error =>
        if bool_decide (code error = 3) then S (retryAttempts (state c))
        else retryAttempts (state c)
    | _ => retryAttempts (state c)
    end.
Proof.
  destruct i as [tracking|p now|e|p now|e|]; simpl;
    rewrite ?commit_writes; try done.
  - unfold render. case_bool_decide; simpl; [done|].
    unfold cleanup, tracking_effect.
    destruct (watch c), tracking; simpl; try done.
    all: destruct (checkGeolocationSupport win _) as [[] msg]; simpl; done.
  - unfold watchPosition_error.
    destruct (code e) as [|[|[|[|n]]]]; simpl; done.
Qed.

(** X15. The retry counter counts the timeouts the watch has reported since
    the retry button was last pressed: a sample, an error of another kind, a
    failure of the one-shot request, a render or a toggle of tracking leaves
    it as it is, so it is not reset when the position comes back. *)
Theorem retry_counter_counts_timeouts (inputs : list Input) (c : Component) :
  retryAttempts (state (run win inputs c).1)
  = timeouts_since_retry inputs (retryAttempts (state c)).
Proof.
  revert c. induction inputs as [|i inputs IH]; intros c; [done|].
  simpl. pose proof (step_retryAttempts i c) as Hs.
  destruct (step win i c) as [c1 first]. simpl in Hs.
  pose proof (IH c1) as Hr. destruct (run win inputs c1) as [c2 others].
  simpl in *. rewrite Hr, Hs. by destruct i.
Qed.

Lemma unsupported_step (nav : Navigator) (i : Input) (c : Component) :
  fst (checkGeolocationSupport win nav) = false ->
  watch c = None -> browser c = nav ->
  watch (step win i c).1 = None /\ browser (step win i c).1 = nav /\
  filter is_request (step win i c).2 = [].
Proof.
  intros Hsup Hw Hb.
  destruct i as [tracking|p now|e|p now|e|]; simpl;
    rewrite ?commit_writes; simpl.
  - unfold render. case_bool_decide; simpl; [done|].
    unfold cleanup. rewrite Hw. unfold tracking_effect. simpl.
    destruct tracking; simpl; [|done]. rewrite Hb.
    destruct (checkGeolocationSupport win nav) as [supported msg].
    simpl in Hsup. subst supported. done.
  - split; [done|]. split; [done|]. by destruct (kind c).
  - done.
  - split; [done|]. split; [done|]. by destruct (kind c).
  - split; [done|]. split; [done|]. unfold watchPosition_error.
    destruct (code e) as [|[|[|[|n]]]]; simpl; done.
  - done.
Qed.

Lemma unsupported_run (nav : Navigator) (inputs : list Input)
    (c : Component) :
  fst (checkGeolocationSupport win nav) = false ->
  watch c = None -> browser c = nav ->
  browser (run win inputs c).1 = nav /\
  filter is_request (run win inputs c).2 = [].
Proof.
  intros Hsup. revert c.
  induction inputs as [|i inputs IH]; intros c Hw Hb; [done|].
  simpl. destruct (unsupported_step nav i c Hsup Hw Hb) as (Hw1 & Hb1 & Hq1).
  destruct (step win i c) as [c1 first]. simpl in *.
  destruct (IH c1 Hw1 Hb1) as [Hb2 Hq2].
  destruct (run win inputs c1) as [c2 others]. simpl in *.
  by rewrite filter_app, Hq1, Hq2.
Qed.

(** X16. On a page where [checkGeolocationSupport] says no (no geolocation
    object, or an insecure page that is not localhost) a tracker mounted with
    tracking enabled shows [unavailable] with the message of the check, and
    whatever happens afterwards it never asks the browser for a position and
    never opens a watch. *)
Theorem unsupported_page_requests_nothing (k : Kind) (nav : Navigator)
    (inputs : list Input) :
  fst (checkGeolocationSupport win nav) = false ->
  let m := mount win k true nav in
  let r := run win inputs m.1 in
  locationStatus (state m.1) = unavailable /\
  errorMessage (state m.1) = snd (checkGeolocationSupport win nav) /\
  filter is_request (m.2 ++ r.2) = [] /\
  browser r.1 = nav.
Proof.
  intros Hsup m r.
  assert (Hm : m = ({| kind := k;
                       state := with_error initial_state unavailable
                                  (snd (checkGeolocationSupport win nav)) 0;
                       isTracking := true; watch := None; browser := nav |},
                    [Console "tracking initiated"])).
  { subst m. unfold mount, tracking_effect. simpl.
    destruct (checkGeolocationSupport win nav) as [supported msg].
    simpl in Hsup. subst supported. done. }
  subst r. rewrite Hm. simpl.
  destruct (unsupported_run nav inputs
              {| kind := k;
                 state := with_error initial_state unavailable
                            (snd (checkGeolocationSupport win nav)) 0;
                 isTracking := true; watch := None; browser := nav |}
              Hsup eq_refl eq_refl) as [Hb Hq].
  split; [done|]. split; [done|]. split; [|done].
  rewrite filter_cons_False by (simpl; auto). done.
Qed.

End TrackerWatch.

(** ** The guarded wrappers *)

Section Guarded.

Import App SafeAsync.


Variable JSON_parse : string -> option jsval.
Variable storage_accepts : string -> string -> bool.

(** X18. [safeLocalStorage.setItem] reports a refused write by returning
    [false] and leaves the storage as it was; after a write that returned
    [true], [safeLocalStorage.getItem] returns the value written. A key that
    is absent, or was removed with [safeLocalStorage.removeItem], reads as
    [null] whatever fallback was given: the fallback is for a read that
    throws. *)
Theorem safe_setItem_then_getItem (key value : string)
    (fallback : option string) (s : Sys) :
  let r :=
    (ok ← safe_setItem storage_accepts key value;
     got ← safe_getItem key fallback;
     mret (ok, got)) s in
  result r
  = Ok (storage_accepts key value,
        if storage_accepts key value then Some value
        else localStorage s !! key) /\
  (if storage_accepts key value
   then final r
        = {| app := app s;
             localStorage := <[key := value]> (localStorage s) |}
   else final r = s /\ filter is_write (emitted r) = []) /\
  result (safe_getItem key fallback s) = Ok (localStorage s !! key) /\
  result
    ((removed ← safe_removeItem key;
      got ← safe_getItem key fallback;
      mret (removed, got)) s)
  = Ok (true, None).
Proof.
  intros r. subst r.
  unfold safe_setItem, safe_getItem, safe_removeItem, removeItem, safeSync,
    try_catch, mbind, M_bind, mret, M_ret, console_error, console_warn, emit,
    setItem, getItem.
  destruct (storage_accepts key value); simpl.
  - rewrite lookup_insert_eq, lookup_delete_eq. done.
  - rewrite lookup_delete_eq. by destruct s.
Qed.

(** X19. [safeJSON.parse] returns the parsed value when [JSON.parse] accepts
    the text and the fallback when it rejects it; it never throws, it changes
    nothing, and it is silent unless the text was rejected. *)
Theorem safe_parse_returns (text : string) (fallback : jsval) (s : Sys) :
  let r := safe_parse JSON_parse text fallback s in
  result r = Ok (default fallback (JSON_parse text)) /\
  final r = s /\
  emitted r
  = match JSON_parse text with
    | Some _ => []
    | None =>
        [ConsoleError "Safe sync operation failed:";
         ConsoleLog "Failed to parse JSON:"]
    end.
Proof.
  intros r. subst r.
  unfold safe_parse, safeSync, try_catch, mbind, M_bind, mret, M_ret,
    console_error, console_warn, emit, parse, throw.
  destruct (JSON_parse text); simpl; by destruct s.
Qed.

End Guarded.

(** ** Alerts *)

Section AlertList.

Import Alerts.

Lemma take_app_take {A} (n : nat) (l m : list A) :
  take n (l ++ take n m) = take n (l ++ m).
Proof.
  rewrite !take_app. f_equal. rewrite take_take. f_equal. lia.
Qed.

(** X20. The alert list keeps the newest fifty alerts, the newest first:
    after any sequence of calls of [addAlert] it is the first fifty of the
    new alerts in reverse order of the calls followed by the earlier ones. *)
Theorem alerts_keep_newest_fifty (calls : list Call) (prev : list Alert) :
  length prev <= 50 ->
  addAlerts calls prev = take 50 (rev (newAlert <$> calls) ++ prev) /\
  length (addAlerts calls prev) <= 50.
Proof.
  revert prev. induction calls as [|c calls IH]; intros prev Hlen.
  - simpl. rewrite take_ge by done. done.
  - unfold addAlerts. simpl. fold (addAlerts calls (addAlert c prev)).
    destruct (IH (addAlert c prev)) as [Heq Hle].
    { unfold addAlert. rewrite length_take. lia. }
    split; [|done]. rewrite Heq. unfold addAlert.
    rewrite take_app_take. by rewrite <- app_assoc.
Qed.

End AlertList.

(** ** The properties at concrete sessions *)

Section Examples.

Import App.

Lemma location_update_rewrites_own_record_example :
  let r :=
    App.updateLocation Codec.stringify Codec.unlimited
      13%float 81%float 2000%float 2001%float App.example_session in
  let b' :=
    App.BoatData.with_location App.example_boat
      {| App.lat := 13%float; App.lng := 81%float;
         App.timestamp := 2000%float |} 2001%float in
  let boats' :=
    (fun x => if bool_decide (App.BoatData.aisId x
                              = App.BoatData.aisId App.example_boat)
              then b' else x) <$> [App.example_boat] in
  App.result r = Ok tt /\
  App.boatData (App.app (App.final r)) = Some b' /\
  App.allBoats (App.app (App.final r)) = App.boat_json <$> boats' /\
  App.localStorage (App.final r) !! App.mirror_key
  = Some (Codec.stringify (VArr (App.boat_json <$> boats'))) /\
  length boats' = length [App.example_boat] /\
  (App.BoatData.aisId App.example_boat
     ∉ (App.BoatData.aisId <$> [App.example_boat]) ->
   boats' = [App.example_boat]).
Proof.
  apply (location_update_rewrites_own_record Codec.stringify Codec.unlimited
           13%float 81%float 2000%float 2001%float App.example_session
           App.example_boat [App.example_boat]).
  - reflexivity.
  - reflexivity.
  - reflexivity.
Defined.

Lemma first_location_update_overwrites_mirror_example :
  let c :=
    {| App.reg_aisId := "AIS-9"; App.reg_boatId := "VESSEL-009";
       App.reg_fishermanName := "Captain Lee";
       App.reg_contactInfo := "+1-555-0109";
       App.reg_t1 := 3000%float; App.reg_t2 := 3001%float |} in
  let s :=
    {| App.app := App.initial_state;
       App.localStorage :=
         {[ App.mirror_key :=
              Codec.stringify (VArr [App.boat_json App.example_boat]) ]} |} in
  let r :=
    (App.register Codec.parse Codec.stringify Codec.unlimited c;;
     App.updateLocation Codec.stringify Codec.unlimited
       13%float 81%float 4000%float 4001%float) s in
  let b' :=
    App.BoatData.with_location (App.registered c)
      {| App.lat := 13%float; App.lng := 81%float;
         App.timestamp := 4000%float |} 4001%float in
  App.result r = Ok tt /\
  App.allBoats (App.app (App.final r)) = [App.boat_json b'] /\
  App.localStorage (App.final r) !! App.mirror_key
  = Some (Codec.stringify (VArr [App.boat_json b'])).
Proof.
  apply (first_location_update_overwrites_mirror Codec.parse Codec.stringify
           Codec.unlimited).
  - vm_compute. reflexivity.
  - reflexivity.
  - reflexivity.
Defined.

Lemma coast_guard_status_update_example :
  let r :=
    App.updateBoatStatusByCoastGuard Codec.stringify Codec.unlimited
      "123456789" danger example_session in
  let boats' :=
    (fun x => if bool_decide (BoatData.aisId x = "123456789")
              then BoatData.with_status x danger else x)
      <$> [example_boat] in
  result r = Ok tt /\
  allBoats (app (final r)) = boat_json <$> boats' /\
  localStorage (final r) !! mirror_key
  = Some (Codec.stringify (VArr (boat_json <$> boats'))) /\
  emitted r
  = [SetItem mirror_key (Codec.stringify (VArr (boat_json <$> boats')));
     DispatchEvent broadcast] /\
  length boats' = length [example_boat] /\
  ("123456789" ∉ (BoatData.aisId <$> [example_boat]) ->
   boats' = [example_boat]) /\
  (forall i x,
     [example_boat] !! i = Some x ->
     exists x',
       boats' !! i = Some x' /\
       BoatData.aisId x' = BoatData.aisId x /\
       BoatData.location x' = BoatData.location x /\
       BoatData.lastUpdate x' = BoatData.lastUpdate x /\
       BoatData.status x'
       = (if bool_decide (BoatData.aisId x = "123456789")
          then danger else BoatData.status x)).
Proof.
  apply (coast_guard_status_update Codec.stringify Codec.unlimited
           "123456789" danger example_session [example_boat]).
  - reflexivity.
  - reflexivity.
Defined.

Lemma failed_registration_leaves_mirror_example :
  let r :=
    App.handleFishermanRegistration Codec.parse Codec.stringify
      (fun _ _ => false) "AIS-1" "VESSEL-001" "Captain Smith" "+1-555-0101"
      1000%float 1000%float fresh in
  (QuotaExceededError = TypeError \/
   QuotaExceededError = QuotaExceededError) /\
  localStorage (final r) = localStorage fresh /\
  filter is_write (emitted r) = [] /\
  (DispatchEvent broadcast ∉ emitted r) /\
  boatData (app (final r))
  = Some (newBoat "AIS-1" "VESSEL-001" "Captain Smith" "+1-555-0101"
            1000%float 1000%float) /\
  isRegistered (app (final r)) = true /\
  isTracking (app (final r)) = true.
Proof.
  apply (failed_registration_leaves_mirror Codec.parse Codec.stringify
           (fun _ _ => false) "AIS-1" "VESSEL-001" "Captain Smith"
           "+1-555-0101" 1000%float 1000%float fresh QuotaExceededError).
  - reflexivity.
  - reflexivity.
Defined.

Lemma registration_on_unparsable_mirror_example :
  let s :=
    {| app := initial_state;
       localStorage := {[ mirror_key := "not json" ]} |} in
  let r :=
    App.handleFishermanRegistration Codec.parse Codec.stringify
      Codec.unlimited "AIS-1" "VESSEL-001" "Captain Smith" "+1-555-0101"
      1000%float 1000%float s in
  let b :=
    newBoat "AIS-1" "VESSEL-001" "Captain Smith" "+1-555-0101"
      1000%float 1000%float in
  result r = Ok tt /\
  localStorage (final r) !! mirror_key
  = Some (Codec.stringify (VArr [boat_json b])) /\
  emitted r
  = [ConsoleError "Error parsing stored vessels:";
     SetItem mirror_key (Codec.stringify (VArr [boat_json b]));
     DispatchEvent broadcast;
     ConsoleLog "New vessel registered:"].
Proof.
  apply (registration_on_unparsable_mirror Codec.parse Codec.stringify
           Codec.unlimited "AIS-1" "VESSEL-001" "Captain Smith"
           "+1-555-0101" 1000%float 1000%float _ "not json").
  - reflexivity.
  - reflexivity.
  - vm_compute. reflexivity.
  - reflexivity.
  - reflexivity.
Defined.

Lemma status_update_survives_reload_example :
  let updated :=
    App.updateBoatStatusByCoastGuard Codec.stringify Codec.unlimited
      "123456789" danger example_session in
  let reloaded :=
    (App.updateBoatStatusByCoastGuard Codec.stringify Codec.unlimited
       "123456789" danger;;
     Session.handleCustomStorageChange Codec.parse) example_session in
  result reloaded = Ok tt /\
  allBoats (app (final reloaded)) = allBoats (app (final updated)) /\
  allBoats (app (final reloaded))
  = boat_json <$>
      ((fun x => if bool_decide (BoatData.aisId x = "123456789")
                 then BoatData.with_status x danger else x)
         <$> [example_boat]).
Proof.
  apply (status_update_survives_reload Codec.parse Codec.stringify
           Codec.unlimited (fun boats _ => codec_parse_stringify boats)
           codec_parse_empty (fun _ => eq_refl) "123456789" danger
           example_session [example_boat]).
  - reflexivity.
  - vm_compute. reflexivity.
Defined.

Lemma vessel_listed_after_logout_example :
  let c :=
    {| reg_aisId := "AIS-9"; reg_boatId := "VESSEL-009";
       reg_fishermanName := "Captain Lee";
       reg_contactInfo := "+1-555-0109";
       reg_t1 := 3000%float; reg_t2 := 3001%float |} in
  let r :=
    (App.register Codec.parse Codec.stringify Codec.unlimited c;;
     Session.logoutFisherman;;
     Session.enterCoastGuard Codec.parse "k3x9" 5000%float 5001%float)
      fresh in
  result r = Ok tt /\
  boatData (app (final r)) = None /\
  isRegistered (app (final r)) = false /\
  coastGuardVessel (app (final r))
  = Some (Session.cgVessel "k3x9" 5000%float 5001%float) /\
  allBoats (app (final r)) = boat_json <$> upsert (registered c) [].
Proof.
  apply (vessel_listed_after_logout Codec.parse Codec.stringify
           Codec.unlimited (fun boats _ => codec_parse_stringify boats)
           codec_parse_empty (fun _ => eq_refl)).
  - left. split; reflexivity.
  - reflexivity.
  - reflexivity.
  - vm_compute. reflexivity.
Defined.

Lemma cached_sample_outlives_the_watch_example :
  let ops :=
    [SharedGeolocation.Subscribe 1 2;
     SharedGeolocation.Sample SharedGeolocation.example_position;
     SharedGeolocation.Unsubscribes (SharedGeolocation.Remove 1 2)] in
  let w := SharedGeolocation.run ops (SharedGeolocation.initial true) in
  SharedGeolocation.open_watches w = 0 /\
  SharedGeolocation.getCurrentPosition w
  = Some SharedGeolocation.example_position /\
  filter SharedGeolocation.is_call (SharedGeolocation.subscribe 3 4 w).2
  = [SharedGeolocation.CallPosition 3 SharedGeolocation.example_position].
Proof.
  split; [reflexivity|].
  apply (cached_sample_outlives_the_watch
           [SharedGeolocation.Subscribe 1 2;
            SharedGeolocation.Sample SharedGeolocation.example_position;
            SharedGeolocation.Unsubscribes (SharedGeolocation.Remove 1 2)]
           (SharedGeolocation.initial true) 3 4
           SharedGeolocation.example_position).
  - reflexivity.
  - reflexivity.
Defined.

Lemma shared_error_callback_is_dropped_example :
  let w := SharedGeolocation.initial true in
  let s1 := SharedGeolocation.subscribe 1 9 w in
  let s2 := SharedGeolocation.subscribe 2 9 s1.1.2 in
  let w3 := (SharedGeolocation.unsubscribe s1.1.1 s2.1.2).1 in
  (2 ∈ SharedGeolocation.callbacks (SharedGeolocation.service w3)) /\
  (9 ∉ SharedGeolocation.errorCallbacks (SharedGeolocation.service w3)) /\
  (SharedGeolocation.CallError 9 Tracker.timed_out
     ∉ (SharedGeolocation.on_error Tracker.timed_out w3).2).
Proof.
  apply (shared_error_callback_is_dropped 1 2 9
           (SharedGeolocation.initial true) Tracker.timed_out).
  - lia.
  - apply not_elem_of_nil.
  - apply not_elem_of_nil.
Defined.


Lemma unsupported_page_requests_nothing_example :
  let win := {| Tracker.isSecureContext := false;
                Tracker.hostname := "example.org" |} in
  let inputs :=
    [Tracker.Retry; Tracker.Render false; Tracker.Render true;
     Tracker.WatchError Tracker.timed_out] in
  let m := Tracker.mount win Tracker.CoastGuard true
             (Geolocation.navigator true) in
  let r := Tracker.run win inputs m.1 in
  Tracker.locationStatus (Tracker.state m.1) = Tracker.unavailable /\
  Tracker.errorMessage (Tracker.state m.1)
  = snd (Tracker.checkGeolocationSupport win (Geolocation.navigator true)) /\
  filter Tracker.is_request (m.2 ++ r.2) = [] /\
  Tracker.browser r.1 = Geolocation.navigator true.
Proof.
  apply (unsupported_page_requests_nothing
           {| Tracker.isSecureContext := false;
              Tracker.hostname := "example.org" |}
           Tracker.CoastGuard (Geolocation.navigator true)
           [Tracker.Retry; Tracker.Render false; Tracker.Render true;
            Tracker.WatchError Tracker.timed_out]).
  reflexivity.
Defined.

Lemma alerts_keep_newest_fifty_example :
  let c :=
    {| Alerts.draft :=
         {| Alerts.draft_type := Alerts.alert_danger;
            Alerts.draft_message := "Coast Guard Message: return to port";
            Alerts.draft_zone := None;
            Alerts.draft_targetBoat := Some "123456789";
            Alerts.draft_fromCoastGuard := Some true |};
       Alerts.drawn := "k3x9q2m1z";
       Alerts.now := 7000%float |} in
  Alerts.addAlerts (replicate 60 c) []
  = take 50 (rev (Alerts.newAlert <$> replicate 60 c) ++ []) /\
  length (Alerts.addAlerts (replicate 60 c) []) <= 50.
Proof.
  apply (alerts_keep_newest_fifty _ []). simpl. lia.
Defined.

Lemma other_tab_sees_registration_example :
  let c :=
    {| reg_aisId := "AIS-9"; reg_boatId := "VESSEL-009";
       reg_fishermanName := "Captain Lee";
       reg_contactInfo := "+1-555-0109";
       reg_t1 := 3000%float; reg_t2 := 3001%float |} in
  let written :=
    App.register Codec.parse Codec.stringify Codec.unlimited c fresh in
  let notified :=
    {| app := app example_session;
       localStorage := localStorage (final written) |} in
  let r :=
    Session.handleStorageChange Codec.parse (Some mirror_key) notified in
  result r = Ok tt /\
  allBoats (app (final r)) = boat_json <$> upsert (registered c) [] /\
  localStorage (final r) = localStorage (final written) /\
  Session.handleStorageChange Codec.parse (Some "theme") notified
  = {| result := Ok tt; final := notified; emitted := [] |}.
Proof.
  apply (other_tab_sees_registration Codec.parse Codec.stringify
           Codec.unlimited (fun boats _ => codec_parse_stringify boats)
           codec_parse_empty (fun _ => eq_refl) _ fresh example_session []
           (Some "theme")).
  - left. split; reflexivity.
  - reflexivity.
  - reflexivity.
  - vm_compute. reflexivity.
  - intros H. discriminate H.
Defined.

End Examples.
